(** * Midnight Document Manager: the cryptographic core

    A shallow embedding of [src/utils/encryption.ts], [src/utils/keys.ts],
    [src/api/witnesses.ts], [src/api/contract.ts] and of the upload and verify
    actions of [src/cli.ts], together with the primitives of Node's [crypto]
    module and of [tweetnacl] that these files call (SHA-256, AES-256-GCM,
    X25519, HSalsa20/XSalsa20, Poly1305), written out as executable
    functions on byte lists.

    Around this core: the key pair file, the other actions of [src/cli.ts]
    (keys, download, share), the checks of [src/utils/environment.ts], the
    choice of storage provider in [src/storage.ts] and the hashing of the web
    front end. *)

From Stdlib Require Import ZArith List Lia String Ascii Bool Arith.
From Stdlib Require Import Strings.Byte.
Import ListNotations.

Local Open Scope Z_scope.
Local Abbreviation length := List.length (only parsing).

(** ** Bytes

    A [Buffer] or [Uint8Array] is a list of bytes; its [length] property is
    the length of the list. *)

Definition bytes := list byte.

Definition b2z (b : byte) : Z := Z.of_N (Byte.to_N b).

Definition z2b (z : Z) : byte :=
  match Byte.of_N (Z.to_N (z mod 256)) with
  | Some b => b
  | None => x00
  end.

Definition zeros (n : nat) : bytes := repeat x00 n.

Definition byte_xor (a b : byte) : byte := z2b (Z.lxor (b2z a) (b2z b)).

(** Bytewise xor of a buffer with a key stream, as long as the shorter one. *)
Definition xor_bytes (a b : bytes) : bytes :=
  map (fun p => byte_xor (fst p) (snd p)) (combine a b).

(** [subarray(start, end)] on a typed array, for [0 <= start <= end]. *)
Definition subarray (b : bytes) (start stop : nat) : bytes :=
  firstn (stop - start) (skipn start b).

(** [subarray(start)]: up to the end. *)
Definition subarray_from (b : bytes) (start : nat) : bytes := skipn start b.

(** Big-endian and little-endian readings of a byte string. *)
Definition be2z (b : bytes) : Z := fold_left (fun acc x => acc * 256 + b2z x) b 0.

Fixpoint le2z (b : bytes) : Z :=
  match b with
  | [] => 0
  | x :: r => b2z x + 256 * le2z r
  end.

(** The [n] low bytes of [z], most significant first. *)
Definition z2be (n : nat) (z : Z) : bytes :=
  map (fun i => z2b (Z.shiftr z (8 * Z.of_nat (n - 1 - i)))) (seq 0 n).

(** The [n] low bytes of [z], least significant first. *)
Definition z2le (n : nat) (z : Z) : bytes :=
  map (fun i => z2b (Z.shiftr z (8 * Z.of_nat i))) (seq 0 n).

(** Cut a byte string into chunks of [n] bytes; the last one may be short. *)
Fixpoint chunks_fuel (fuel : nat) (n : nat) (b : bytes) : list bytes :=
  match fuel with
  | O => []
  | S fuel' =>
      match b with
      | [] => []
      | _ => firstn n b :: chunks_fuel fuel' n (skipn n b)
      end
  end.

Definition chunks (n : nat) (b : bytes) : list bytes := chunks_fuel (length b) n b.

(** ** Thrown errors

    The source throws [new Error(message)]; the error kinds are the ones of
    the error taxonomy, assigned by message. *)

Record Error := mkError { message : string }.

Inductive result (A : Type) : Type :=
| Ok (a : A)
| Throw (e : Error).
Arguments Ok {A} a.
Arguments Throw {A} e.

Definition throw {A : Type} (msg : string) : result A := Throw (mkError msg).

Definition bind {A B : Type} (r : result A) (k : A -> result B) : result B :=
  match r with
  | Ok a => k a
  | Throw e => Throw e
  end.

Notation "'let*' x ':=' r 'in' k" := (bind r (fun x => k))
  (at level 10, x pattern, r at level 100, k at level 200).

Inductive ErrorKind :=
| InvalidKeyLength
| InvalidSeedLength
| InvalidEncoding
| AuthenticationFailed
| UnwrapFailed
| MalformedPayload
| OtherError.

Definition kind_table : list (string * ErrorKind) :=
  [ ("Encryption key must be 32 bytes (256 bits)"%string, InvalidKeyLength);
    ("Decryption key must be 32 bytes (256 bits)"%string, InvalidKeyLength);
    ("Document key must be 32 bytes"%string, InvalidKeyLength);
    ("Secret key must be 32 bytes"%string, InvalidKeyLength);
    ("bad public key size"%string, InvalidKeyLength);
    ("bad secret key size"%string, InvalidKeyLength);
    ("bad key size"%string, InvalidKeyLength);
    ("Seed must be 32 bytes"%string, InvalidSeedLength);
    ("Invalid public key: must be 64 hex characters (32 bytes)"%string, InvalidEncoding);
    ("Unsupported state or unable to authenticate data"%string, AuthenticationFailed);
    ("Failed to decrypt document key - invalid key or corrupted data"%string, UnwrapFailed);
    ("Packed data too short (minimum 28 bytes for IV + authTag)"%string, MalformedPayload) ].

Fixpoint lookup_kind (t : list (string * ErrorKind)) (m : string) : ErrorKind :=
  match t with
  | [] => OtherError
  | (m', k) :: t' => if String.eqb m m' then k else lookup_kind t' m
  end.

Definition kind (e : Error) : ErrorKind := lookup_kind kind_table (message e).

(** ** The random source

    [crypto.randomBytes] and tweetnacl's [randombytes] draw from the
    process-wide generator: an endless tape of bytes, consumed from the
    front. *)

Definition entropy := nat -> byte.

Definition randomBytes (n : nat) (e : entropy) : bytes * entropy :=
  (map e (seq 0 n), fun i => e (n + i)%nat).

(** ** SHA-256 (FIPS 180-4), as computed by [createHash("sha256")] *)

Module SHA256.

Definition w32 (x : Z) : Z := x mod 2 ^ 32.
Definition add32 (x y : Z) : Z := w32 (x + y).
Definition rotr (n x : Z) : Z := Z.lor (Z.shiftr x n) (w32 (Z.shiftl x (32 - n))).
Definition not32 (x : Z) : Z := 2 ^ 32 - 1 - x.

Definition Ch (x y z : Z) : Z := Z.lxor (Z.land x y) (Z.land (not32 x) z).
Definition Maj (x y z : Z) : Z :=
  Z.lxor (Z.lxor (Z.land x y) (Z.land x z)) (Z.land y z).
Definition bsig0 (x : Z) : Z := Z.lxor (Z.lxor (rotr 2 x) (rotr 13 x)) (rotr 22 x).
Definition bsig1 (x : Z) : Z := Z.lxor (Z.lxor (rotr 6 x) (rotr 11 x)) (rotr 25 x).
Definition ssig0 (x : Z) : Z := Z.lxor (Z.lxor (rotr 7 x) (rotr 18 x)) (Z.shiftr x 3).
Definition ssig1 (x : Z) : Z := Z.lxor (Z.lxor (rotr 17 x) (rotr 19 x)) (Z.shiftr x 10).

(** The round constants are the first 32 bits of the fractional parts of
    the cube roots of the first 64 primes; the initial hash value comes in
    the same way from the square roots of the first 8 primes. *)
Definition primes64 : list Z :=
  [ 2; 3; 5; 7; 11; 13; 17; 19; 23; 29; 31; 37; 41; 43; 47; 53;
    59; 61; 67; 71; 73; 79; 83; 89; 97; 101; 103; 107; 109; 113; 127; 131;
    137; 139; 149; 151; 157; 163; 167; 173; 179; 181; 191; 193; 197; 199; 211; 223;
    227; 229; 233; 239; 241; 251; 257; 263; 269; 271; 277; 281; 283; 293; 307; 311 ].

(** Integer cube root, one bit at a time from bit 39 down. *)
Definition icbrt (n : Z) : Z :=
  fold_left (fun r i => let r' := r + 2 ^ Z.of_nat i in
                        if r' * r' * r' <=? n then r' else r)
            (rev (seq 0 40)) 0.

Definition K : list Z :=
  Eval vm_compute in map (fun q => w32 (icbrt (q * 2 ^ 96))) primes64.

Record hstate := mkH { ha : Z; hb : Z; hc : Z; hd : Z; he : Z; hf : Z; hg : Z; hh : Z }.

Definition frac_sqrt (q : Z) : Z := w32 (Z.sqrt (q * 2 ^ 64)).

Definition H0 : hstate :=
  Eval vm_compute in
    mkH (frac_sqrt 2) (frac_sqrt 3) (frac_sqrt 5) (frac_sqrt 7)
        (frac_sqrt 11) (frac_sqrt 13) (frac_sqrt 17) (frac_sqrt 19).

(** Message padding: a 1 bit, zeros up to 56 mod 64, the bit length on 8 bytes. *)
Definition pad (m : bytes) : bytes :=
  let l := length m in
  m ++ [x80] ++ zeros ((119 - l mod 64) mod 64) ++ z2be 8 (8 * Z.of_nat l).

(** The message schedule, latest word first. *)
Fixpoint schedule (n : nat) (rev_w : list Z) : list Z :=
  match n with
  | O => rev_w
  | S n' =>
      let w := add32 (add32 (ssig1 (nth 1 rev_w 0)) (nth 6 rev_w 0))
                     (add32 (ssig0 (nth 14 rev_w 0)) (nth 15 rev_w 0)) in
      schedule n' (w :: rev_w)
  end.

Definition block_words (blk : bytes) : list Z := map be2z (chunks 4 blk).

Definition round (s : hstate) (kw : Z * Z) : hstate :=
  let (k, w) := kw in
  let t1 := add32 (add32 (add32 (hh s) (bsig1 (he s))) (add32 (Ch (he s) (hf s) (hg s)) k)) w in
  let t2 := add32 (bsig0 (ha s)) (Maj (ha s) (hb s) (hc s)) in
  mkH (add32 t1 t2) (ha s) (hb s) (hc s) (add32 (hd s) t1) (he s) (hf s) (hg s).

Definition compress (s : hstate) (blk : bytes) : hstate :=
  let w := rev (schedule 48 (rev (block_words blk))) in
  let t := fold_left round (combine K w) s in
  mkH (add32 (ha s) (ha t)) (add32 (hb s) (hb t)) (add32 (hc s) (hc t)) (add32 (hd s) (hd t))
      (add32 (he s) (he t)) (add32 (hf s) (hf t)) (add32 (hg s) (hg t)) (add32 (hh s) (hh t)).

Definition output (s : hstate) : bytes :=
  z2be 4 (ha s) ++ z2be 4 (hb s) ++ z2be 4 (hc s) ++ z2be 4 (hd s) ++
  z2be 4 (he s) ++ z2be 4 (hf s) ++ z2be 4 (hg s) ++ z2be 4 (hh s).

Definition sha256 (m : bytes) : bytes :=
  output (fold_left compress (chunks 64 (pad m)) H0).

End SHA256.

(** [createHash("sha256")], [.update(data)], [.digest()]: the hash object
    accumulates what it is fed. *)
Record Hash := mkHash { fed : bytes }.
Definition createHash_sha256 : Hash := mkHash [].
Definition update (h : Hash) (data : bytes) : Hash := mkHash (fed h ++ data).
Definition digest (h : Hash) : bytes := SHA256.sha256 (fed h).

Definition bytes_of_string (s : string) : bytes := list_byte_of_string s.

Definition hex_digit (n : Z) : ascii :=
  ascii_of_nat (Z.to_nat (if n <? 10 then 48 + n else 87 + n)).

(** [buf.toString("hex")] *)
Fixpoint toString_hex (b : bytes) : string :=
  match b with
  | [] => EmptyString
  | x :: r => String (hex_digit (b2z x / 16)) (String (hex_digit (b2z x mod 16)) (toString_hex r))
  end.

(** ** AES-256 (FIPS 197), the block cipher behind ["aes-256-gcm"] *)

Module AES.

(** Multiplication by x in GF(2^8) modulo x^8 + x^4 + x^3 + x + 1. *)
Definition xtime (a : Z) : Z :=
  let b := Z.shiftl a 1 in
  if Z.testbit a 7 then Z.lxor (Z.land b 255) 0x1b else b.

Fixpoint gmul_fuel (n : nat) (a b acc : Z) : Z :=
  match n with
  | O => acc
  | S n' => gmul_fuel n' (xtime a) (Z.shiftr b 1) (if Z.odd b then Z.lxor acc a else acc)
  end.

Definition gmul (a b : Z) : Z := gmul_fuel 8 a b 0.

Fixpoint gpow (a : Z) (n : nat) : Z :=
  match n with
  | O => 1
  | S n' => gmul a (gpow a n')
  end.

Definition rotl8 (x : Z) (n : Z) : Z :=
  Z.land (Z.lor (Z.shiftl x n) (Z.shiftr x (8 - n))) 255.

(** The S-box: inversion in GF(2^8) followed by the affine map. *)
Definition sbox_entry (x : Z) : Z :=
  let i := gpow x 254 in
  Z.lxor (Z.lxor (Z.lxor (Z.lxor (Z.lxor i (rotl8 i 1)) (rotl8 i 2)) (rotl8 i 3)) (rotl8 i 4)) 0x63.

Definition sbox_table : list Z :=
  Eval vm_compute in map (fun i => sbox_entry (Z.of_nat i)) (seq 0 256).

Definition sbox (x : Z) : Z := nth (Z.to_nat x) sbox_table 0.

Definition xor_list (a b : list Z) : list Z := map (fun p => Z.lxor (fst p) (snd p)) (combine a b).

(** Key expansion for a 256-bit key: 60 words of 4 bytes, latest word first. *)
Definition sub_word (w : list Z) : list Z := map sbox w.
Definition rot_word (w : list Z) : list Z :=
  match w with
  | a :: r => r ++ [a]
  | [] => []
  end.

Fixpoint expand (n : nat) (i : nat) (rcon : Z) (rev_w : list (list Z)) : list (list Z) :=
  match n with
  | O => rev_w
  | S n' =>
      let prev := nth 0 rev_w [] in
      let back := nth 7 rev_w [] in
      if (i mod 8 =? 0)%nat then
        let t := xor_list (sub_word (rot_word prev)) [rcon; 0; 0; 0] in
        expand n' (S i) (xtime rcon) (xor_list back t :: rev_w)
      else if (i mod 8 =? 4)%nat then
        expand n' (S i) rcon (xor_list back (sub_word prev) :: rev_w)
      else
        expand n' (S i) rcon (xor_list back prev :: rev_w)
  end.

Fixpoint group4 (n : nat) (l : list Z) : list (list Z) :=
  match n with
  | O => []
  | S n' => firstn 4 l :: group4 n' (skipn 4 l)
  end.

Fixpoint group_keys (n : nat) (w : list (list Z)) : list (list Z) :=
  match n with
  | O => []
  | S n' => List.concat (firstn 4 w) :: group_keys n' (skipn 4 w)
  end.

(** The 15 round keys, 16 bytes each. *)
Definition round_keys (key : list Z) : list (list Z) :=
  group_keys 15 (rev (expand 52 8 1 (rev (group4 8 key)))).

(** The state is stored column by column: index [r + 4 * c]. *)
Definition sub_bytes (s : list Z) : list Z := map sbox s.

Definition shift_rows (s : list Z) : list Z :=
  map (fun i => nth (i mod 4 + 4 * ((i / 4 + i mod 4) mod 4))%nat s 0) (seq 0 16).

Definition mix_column (c : list Z) : list Z :=
  let a0 := nth 0 c 0 in let a1 := nth 1 c 0 in
  let a2 := nth 2 c 0 in let a3 := nth 3 c 0 in
  [ Z.lxor (Z.lxor (gmul a0 2) (gmul a1 3)) (Z.lxor a2 a3);
    Z.lxor (Z.lxor a0 (gmul a1 2)) (Z.lxor (gmul a2 3) a3);
    Z.lxor (Z.lxor a0 a1) (Z.lxor (gmul a2 2) (gmul a3 3));
    Z.lxor (Z.lxor (gmul a0 3) a1) (Z.lxor a2 (gmul a3 2)) ].

Definition mix_columns (s : list Z) : list Z := flat_map mix_column (group4 4 s).

Definition full_round (s : list Z) (rk : list Z) : list Z :=
  xor_list (mix_columns (shift_rows (sub_bytes s))) rk.

Definition last_round (s : list Z) (rk : list Z) : list Z :=
  xor_list (shift_rows (sub_bytes s)) rk.

Definition cipher (rks : list (list Z)) (block : list Z) : list Z :=
  let s0 := xor_list block (nth 0 rks []) in
  let s13 := fold_left full_round (firstn 13 (skipn 1 rks)) s0 in
  last_round s13 (nth 14 rks []).

(** Encryption of one 128-bit block, given and returned as an integer
    (most significant byte first). *)
Definition encrypt_block (key : bytes) (block : Z) : Z :=
  fold_left (fun acc x => acc * 256 + x)
            (cipher (round_keys (map b2z key)) (map b2z (z2be 16 block))) 0.

End AES.

(** ** Galois/Counter Mode (NIST SP 800-38D) *)

Module GCM.

(** Multiplication in GF(2^128); bit 0 of a block is its most significant bit. *)
Definition R : Z := Eval vm_compute in Z.shiftl 0xe1 120.

Fixpoint gf_mul_fuel (n : nat) (x v z : Z) : Z :=
  match n with
  | O => z
  | S n' =>
      let z' := if Z.testbit x (Z.of_nat n') then Z.lxor z v else z in
      let v' := if Z.odd v then Z.lxor (Z.shiftr v 1) R else Z.shiftr v 1 in
      gf_mul_fuel n' x v' z'
  end.

Definition gf_mul (x y : Z) : Z := gf_mul_fuel 128 x y 0.

(** Right-pad with zero bytes to a multiple of 16. *)
Definition pad16 (b : bytes) : bytes :=
  b ++ zeros ((16 - length b mod 16) mod 16).

Definition ghash (h : Z) (data : bytes) : Z :=
  fold_left (fun y blk => gf_mul (Z.lxor y (be2z blk)) h) (chunks 16 data) 0.

(** Increment the rightmost 32 bits of a counter block, [i] times. *)
Definition inc32 (cb : Z) (i : Z) : Z :=
  Z.shiftl (Z.shiftr cb 32) 32 + (cb mod 2 ^ 32 + i) mod 2 ^ 32.

Definition keystream (key : bytes) (icb : Z) (nblocks : nat) : bytes :=
  flat_map (fun i => z2be 16 (AES.encrypt_block key (inc32 icb (Z.of_nat i)))) (seq 0 nblocks).

Definition gctr (key : bytes) (icb : Z) (data : bytes) : bytes :=
  xor_bytes data (keystream key icb ((length data + 15) / 16)).

Definition hash_subkey (key : bytes) : Z := AES.encrypt_block key 0.

(** The pre-counter block J0. *)
Definition j0 (key : bytes) (iv : bytes) : Z :=
  if (length iv =? 12)%nat then be2z iv * 2 ^ 32 + 1
  else ghash (hash_subkey key) (pad16 iv ++ zeros 8 ++ z2be 8 (8 * Z.of_nat (length iv))).

(** The full 16-byte tag of a ciphertext, with no associated data. *)
Definition tag (key : bytes) (iv : bytes) (ct : bytes) : bytes :=
  let s := ghash (hash_subkey key)
                 (pad16 ct ++ z2be 8 0 ++ z2be 8 (8 * Z.of_nat (length ct))) in
  z2be 16 (Z.lxor s (AES.encrypt_block key (j0 key iv))).

Definition encrypt (key iv plaintext : bytes) : bytes * bytes :=
  let ct := gctr key (inc32 (j0 key iv) 1) plaintext in
  (ct, tag key iv ct).

Definition decrypt_raw (key iv ct : bytes) : bytes :=
  gctr key (inc32 (j0 key iv) 1) ct.

End GCM.

(** ** Node's [crypto] cipher objects for ["aes-256-gcm"]

    [createCipheriv], [update], [final], [getAuthTag] and
    [createDecipheriv], [setAuthTag], [update], [final]. [update] returns
    the processed bytes and [final] an empty buffer; on a decipher [final]
    throws when the tag set by [setAuthTag] does not verify. *)

Definition valid_gcm_tag_length (n : nat) : bool :=
  existsb (Nat.eqb n) [4; 8; 12; 13; 14; 15; 16]%nat.

Definition bytes_eqb (a b : bytes) : bool :=
  if list_eq_dec Byte.byte_eq_dec a b then true else false.

Definition aes256gcm_cipher (key iv data : bytes) : result (bytes * bytes) :=
  if negb (length key =? 32)%nat then throw "Invalid key length"
  else if (length iv =? 0)%nat then throw "Invalid initialization vector"
  else Ok (GCM.encrypt key iv data).

Definition aes256gcm_decipher (key iv authTag data : bytes) : result bytes :=
  if negb (length key =? 32)%nat then throw "Invalid key length"
  else if (length iv =? 0)%nat then throw "Invalid initialization vector"
  else if negb (valid_gcm_tag_length (length authTag))
  then throw "Invalid authentication tag length"
  else if bytes_eqb authTag (firstn (length authTag) (GCM.tag key iv data))
  then Ok (GCM.decrypt_raw key iv data)
  else throw "Unsupported state or unable to authenticate data".

(** ** [src/utils/encryption.ts] *)

Record EncryptedData := mkEncryptedData {
  ciphertext : bytes;
  iv : bytes;
  authTag : bytes
}.

Definition generateDocumentKey (e : entropy) : bytes * entropy := randomBytes 32 e.

Definition encryptData (data key : bytes) (e : entropy) : result EncryptedData * entropy :=
  if negb (length key =? 32)%nat
  then (throw "Encryption key must be 32 bytes (256 bits)", e)
  else
    let (iv, e') := randomBytes 12 e in
    (let* ct_tag := aes256gcm_cipher key iv data in
     Ok (mkEncryptedData (fst ct_tag) iv (snd ct_tag)), e').

Definition decryptData (encryptedData : EncryptedData) (key : bytes) : result bytes :=
  if negb (length key =? 32)%nat
  then throw "Decryption key must be 32 bytes (256 bits)"
  else aes256gcm_decipher key (iv encryptedData) (authTag encryptedData)
                          (ciphertext encryptedData).

Definition encryptFile (fileData key : bytes) (e : entropy) := encryptData fileData key e.
Definition decryptFile (encryptedData : EncryptedData) (key : bytes) :=
  decryptData encryptedData key.

Definition computeContentHash (data : bytes) : bytes :=
  digest (update createHash_sha256 data).

Definition computeContentHashHex (data : bytes) : string :=
  toString_hex (computeContentHash data).

Definition packEncryptedData (encryptedData : EncryptedData) : bytes :=
  iv encryptedData ++ authTag encryptedData ++ ciphertext encryptedData.

Definition unpackEncryptedData (packed : bytes) : result EncryptedData :=
  if (length packed <? 28)%nat
  then throw "Packed data too short (minimum 28 bytes for IV + authTag)"
  else
    let iv := subarray packed 0 12 in
    let authTag := subarray packed 12 28 in
    let ciphertext := subarray_from packed 28 in
    Ok (mkEncryptedData ciphertext iv authTag).

(** ** tweetnacl: the Salsa20 family *)

Module Salsa20.

Definition w32 (x : Z) : Z := x mod 2 ^ 32.
Definition rotl (x : Z) (n : Z) : Z :=
  Z.lor (w32 (Z.shiftl x n)) (Z.shiftr x (32 - n)).

(** The 16 words of the state are held in a list; [qr] updates positions
    [a], [b], [c], [d] by one quarter round. *)
Definition get (s : list Z) (i : nat) : Z := nth i s 0.

Fixpoint set (s : list Z) (i : nat) (v : Z) : list Z :=
  match s, i with
  | [], _ => []
  | _ :: r, O => v :: r
  | x :: r, S i' => x :: set r i' v
  end.

Definition qr (s : list Z) (a b c d : nat) : list Z :=
  let s := set s b (Z.lxor (get s b) (rotl (w32 (get s a + get s d)) 7)) in
  let s := set s c (Z.lxor (get s c) (rotl (w32 (get s b + get s a)) 9)) in
  let s := set s d (Z.lxor (get s d) (rotl (w32 (get s c + get s b)) 13)) in
  set s a (Z.lxor (get s a) (rotl (w32 (get s d + get s c)) 18)).

Definition doubleround (s : list Z) : list Z :=
  let s := qr s 0 4 8 12 in
  let s := qr s 5 9 13 1 in
  let s := qr s 10 14 2 6 in
  let s := qr s 15 3 7 11 in
  let s := qr s 0 1 2 3 in
  let s := qr s 5 6 7 4 in
  let s := qr s 10 11 8 9 in
  qr s 15 12 13 14.

Fixpoint iterate {A : Type} (n : nat) (f : A -> A) (x : A) : A :=
  match n with
  | O => x
  | S n' => iterate n' f (f x)
  end.

Definition words_le (b : bytes) : list Z := map le2z (chunks 4 b).

(** "expand 32-byte k" *)
Definition sigma : bytes := list_byte_of_string "expand 32-byte k".

Definition initial (inp k c : bytes) : list Z :=
  let cw := words_le c in
  let kw := words_le k in
  let iw := words_le inp in
  [ get cw 0; get kw 0; get kw 1; get kw 2;
    get kw 3; get cw 1; get iw 0; get iw 1;
    get iw 2; get iw 3; get cw 2; get kw 4;
    get kw 5; get kw 6; get kw 7; get cw 3 ].

(** [crypto_core_salsa20]: 64 bytes of output. *)
Definition core_salsa20 (inp k c : bytes) : bytes :=
  let x := initial inp k c in
  let y := iterate 10 doubleround x in
  flat_map (fun i => z2le 4 (w32 (get x i + get y i))) (seq 0 16).

(** [crypto_core_hsalsa20]: 32 bytes of output. *)
Definition core_hsalsa20 (inp k c : bytes) : bytes :=
  let y := iterate 10 doubleround (initial inp k c) in
  flat_map (fun i => z2le 4 (get y i)) [0; 5; 10; 15; 6; 7; 8; 9]%nat.

(** The Salsa20 key stream for an 8-byte nonce: block [i] has counter [i]. *)
Definition keystream (n8 k : bytes) (nblocks : nat) : bytes :=
  flat_map (fun i => core_salsa20 (n8 ++ z2le 8 (Z.of_nat i)) k sigma) (seq 0 nblocks).

Definition stream_salsa20_xor (m n8 k : bytes) : bytes :=
  xor_bytes m (keystream n8 k ((length m + 63) / 64)).

(** [crypto_stream_xor] and [crypto_stream] (XSalsa20, 24-byte nonce). *)
Definition stream_xor (m n k : bytes) : bytes :=
  let s := core_hsalsa20 (firstn 16 n) k sigma in
  stream_salsa20_xor m (skipn 16 n) s.

Definition stream (d : nat) (n k : bytes) : bytes := stream_xor (zeros d) n k.

End Salsa20.

(** ** tweetnacl: Poly1305 one-time authenticator *)

Module Poly1305.

Definition p1305 : Z := Eval vm_compute in 2 ^ 130 - 5.
Definition clamp_r (r : Z) : Z := Z.land r 0x0ffffffc0ffffffc0ffffffc0fffffff.

Definition absorb (r : Z) (acc : Z) (blk : bytes) : Z :=
  ((acc + le2z blk + 2 ^ (8 * Z.of_nat (length blk))) * r) mod p1305.

(** [crypto_onetimeauth]: 16 bytes. *)
Definition onetimeauth (m k : bytes) : bytes :=
  let r := clamp_r (le2z (firstn 16 k)) in
  let s := le2z (firstn 16 (skipn 16 k)) in
  z2le 16 (fold_left (absorb r) (chunks 16 m) 0 + s).

(** [crypto_verify_16]: 0 when the two 16-byte strings agree, -1 otherwise. *)
Definition verify_16 (x y : bytes) : Z :=
  let d := fold_left (fun d i => Z.lor d (Z.lxor (b2z (nth i x x00)) (b2z (nth i y x00))))
                     (seq 0 16) 0 in
  Z.land 1 (Z.shiftr ((d - 1) mod 2 ^ 32) 8) - 1.

Definition onetimeauth_verify (h m k : bytes) : Z := verify_16 h (onetimeauth m k).

End Poly1305.

(** ** tweetnacl: X25519 ([crypto_scalarmult]) *)

Module Curve25519.

Definition p : Z := Eval vm_compute in 2 ^ 255 - 19.

(** The field operations [A], [Z], [M], [S] of tweetnacl on reduced values. *)
Definition fadd (a b : Z) : Z := (a + b) mod p.
Definition fsub (a b : Z) : Z := (a - b) mod p.
Definition fmul (a b : Z) : Z := (a * b) mod p.
Definition fsq (a : Z) : Z := fmul a a.

(** [sel25519]: swap when the bit is set. *)
Definition sel (r : bool) (ab : Z * Z) : Z * Z :=
  if r then (snd ab, fst ab) else ab.

Record ladder := mkLadder { la : Z; lb : Z; lc : Z; ld : Z }.

(** One iteration of the loop of [crypto_scalarmult], for scalar bit [r]
    and base coordinate [x]. *)
Definition ladder_step (x : Z) (s : ladder) (r : bool) : ladder :=
  let '(a, b) := sel r (la s, lb s) in
  let '(c, d) := sel r (lc s, ld s) in
  let e := fadd a c in
  let a := fsub a c in
  let c := fadd b d in
  let b := fsub b d in
  let d := fsq e in
  let f := fsq a in
  let a := fmul c a in
  let c := fmul b e in
  let e := fadd a c in
  let a := fsub a c in
  let b := fsq a in
  let c := fsub d f in
  let a := fmul c 121665 in
  let a := fadd a d in
  let c := fmul c a in
  let a := fmul d f in
  let d := fmul b x in
  let b := fsq e in
  let '(a, b) := sel r (a, b) in
  let '(c, d) := sel r (c, d) in
  mkLadder a b c d.

(** [inv25519]: 254 squarings, multiplying in all but two of them. *)
Definition inv25519 (i : Z) : Z :=
  fold_left (fun c a => let c := fsq c in
                        if orb (a =? 2)%nat (a =? 4)%nat then c else fmul c i)
            (rev (seq 0 254)) i.

(** The scalar after clamping: [z[31] = (n[31] & 127) | 64; z[0] &= 248]. *)
Definition clamp (n : bytes) : Z :=
  Z.lor (Z.land (le2z (firstn 32 n)) (2 ^ 255 - 8)) (2 ^ 254).

(** [unpack25519]: the top bit of the last byte is dropped. *)
Definition unpack25519 (b : bytes) : Z := le2z (firstn 32 b) mod 2 ^ 255.

(** [pack25519]: the canonical representative, 32 bytes, little-endian. *)
Definition pack25519 (v : Z) : bytes := z2le 32 (v mod p).

Definition ladder_run (z x : Z) : ladder :=
  fold_left (fun s i => ladder_step x s (Z.testbit z (Z.of_nat i)))
            (rev (seq 0 255)) (mkLadder 1 x 0 1).

Definition crypto_scalarmult (n pk : bytes) : bytes :=
  let z := clamp n in
  let x := unpack25519 pk in
  let s := ladder_run z x in
  pack25519 (fmul (la s) (inv25519 (lc s))).

Definition _9 : bytes := x09 :: zeros 31.

Definition crypto_scalarmult_base (n : bytes) : bytes := crypto_scalarmult n _9.

End Curve25519.

(** ** tweetnacl: [nacl.secretbox], [nacl.box] and key pairs *)

Module nacl.

Definition nonceLength : nat := 24.

(** [crypto_box_beforenm] *)
Definition box_beforenm (pk sk : bytes) : bytes :=
  Salsa20.core_hsalsa20 (zeros 16) (Curve25519.crypto_scalarmult sk pk) Salsa20.sigma.

(** [crypto_secretbox] on the zero-padded message [m] (32 zero bytes, then
    the message); the result is 16 zero bytes, the tag, the ciphertext. *)
Definition crypto_secretbox (m n k : bytes) : bytes :=
  let c := Salsa20.stream_xor m n k in
  zeros 16 ++ Poly1305.onetimeauth (skipn 32 c) (firstn 32 c) ++ skipn 32 c.

(** [crypto_secretbox_open] on the zero-padded box [c]; [None] stands for
    the return value -1. *)
Definition crypto_secretbox_open (c n k : bytes) : option bytes :=
  if (length c <? 32)%nat then None
  else
    let x := Salsa20.stream 32 n k in
    if negb (Poly1305.onetimeauth_verify (firstn 16 (skipn 16 c)) (skipn 32 c) x =? 0)
    then None
    else Some (zeros 32 ++ skipn 32 (Salsa20.stream_xor c n k)).

Definition checkLengths (k n : bytes) : result unit :=
  if negb (length k =? 32)%nat then throw "bad key size"
  else if negb (length n =? 24)%nat then throw "bad nonce size"
  else Ok tt.

Definition checkBoxLengths (pk sk : bytes) : result unit :=
  if negb (length pk =? 32)%nat then throw "bad public key size"
  else if negb (length sk =? 32)%nat then throw "bad secret key size"
  else Ok tt.

Definition secretbox (msg nonce key : bytes) : result bytes :=
  let* _ := checkLengths key nonce in
  Ok (skipn 16 (crypto_secretbox (zeros 32 ++ msg) nonce key)).

(** [nacl.secretbox.open]; [Ok None] is the JavaScript [null]. *)
Definition secretbox_open (box nonce key : bytes) : result (option bytes) :=
  let* _ := checkLengths key nonce in
  let c := zeros 16 ++ box in
  if (length c <? 32)%nat then Ok None
  else
    match crypto_secretbox_open c nonce key with
    | None => Ok None
    | Some m => Ok (Some (skipn 32 m))
    end.

Definition box_before (publicKey secretKey : bytes) : result bytes :=
  let* _ := checkBoxLengths publicKey secretKey in
  Ok (box_beforenm publicKey secretKey).

Definition box (msg nonce publicKey secretKey : bytes) : result bytes :=
  let* k := box_before publicKey secretKey in
  secretbox msg nonce k.

Definition box_open (msg nonce publicKey secretKey : bytes) : result (option bytes) :=
  let* k := box_before publicKey secretKey in
  secretbox_open msg nonce k.

(** [nacl.box.keyPair()] and [nacl.box.keyPair.fromSecretKey]: a pair
    (public key, secret key). *)
Definition box_keyPair (e : entropy) : (bytes * bytes) * entropy :=
  let (sk, e') := randomBytes 32 e in
  ((Curve25519.crypto_scalarmult_base sk, sk), e').

Definition box_keyPair_fromSecretKey (secretKey : bytes) : result (bytes * bytes) :=
  if negb (length secretKey =? 32)%nat then throw "bad secret key size"
  else Ok (Curve25519.crypto_scalarmult_base secretKey, secretKey).

End nacl.

(** ** Hexadecimal strings

    [Buffer.from(s, "hex")] decodes two characters at a time and stops at
    the first pair that is not made of two hexadecimal digits; a trailing
    single character is dropped. It never throws. *)

Definition unhex (c : ascii) : option Z :=
  let n := Z.of_nat (nat_of_ascii c) in
  if andb (48 <=? n) (n <=? 57) then Some (n - 48)
  else if andb (97 <=? n) (n <=? 102) then Some (n - 87)
  else if andb (65 <=? n) (n <=? 70) then Some (n - 55)
  else None.

Fixpoint Buffer_from_hex (s : string) : bytes :=
  match s with
  | String a (String b r) =>
      match unhex a, unhex b with
      | Some x, Some y => z2b (16 * x + y) :: Buffer_from_hex r
      | _, _ => []
      end
  | _ => []
  end.

(** ** [src/utils/keys.ts] *)

Record DocumentKeyPair := mkDocumentKeyPair {
  publicKey : bytes;
  secretKey : bytes
}.

Record SerializedKeyPair := mkSerializedKeyPair {
  ser_publicKey : string;
  ser_secretKey : string
}.

Record WrappedKey := mkWrappedKey {
  encryptedKey : bytes;
  nonce : bytes;
  senderPublicKey : bytes
}.

Record SerializedWrappedKey := mkSerializedWrappedKey {
  ser_encryptedKey : string;
  ser_nonce : string;
  ser_senderPublicKey : string
}.

Definition generateKeyPair (e : entropy) : DocumentKeyPair * entropy :=
  let (keypair, e') := nacl.box_keyPair e in
  (mkDocumentKeyPair (fst keypair) (snd keypair), e').

Definition generateKeyPairFromSeed (seed : bytes) : result DocumentKeyPair :=
  if negb (length seed =? 32)%nat then throw "Seed must be 32 bytes"
  else
    let* keypair := nacl.box_keyPair_fromSecretKey seed in
    Ok (mkDocumentKeyPair (fst keypair) (snd keypair)).

Definition serializeKeyPair (keypair : DocumentKeyPair) : SerializedKeyPair :=
  mkSerializedKeyPair (toString_hex (publicKey keypair)) (toString_hex (secretKey keypair)).

Definition deserializeKeyPair (serialized : SerializedKeyPair) : DocumentKeyPair :=
  mkDocumentKeyPair (Buffer_from_hex (ser_publicKey serialized))
                    (Buffer_from_hex (ser_secretKey serialized)).

Definition wrapDocumentKey (documentKey recipientPublicKey : bytes)
           (senderKeypair : DocumentKeyPair) (e : entropy) : result WrappedKey * entropy :=
  if negb (length documentKey =? 32)%nat
  then (throw "Document key must be 32 bytes", e)
  else
    let (nonce, e') := randomBytes nacl.nonceLength e in
    (let* encryptedKey :=
       nacl.box documentKey nonce recipientPublicKey (secretKey senderKeypair) in
     Ok (mkWrappedKey encryptedKey nonce (publicKey senderKeypair)), e').

Definition unwrapDocumentKey (wrappedKey : WrappedKey) (recipientSecretKey : bytes)
  : result bytes :=
  let* decrypted :=
    nacl.box_open (encryptedKey wrappedKey) (nonce wrappedKey)
                  (senderPublicKey wrappedKey) recipientSecretKey in
  match decrypted with
  | None => throw "Failed to decrypt document key - invalid key or corrupted data"
  | Some d => Ok d
  end.

Definition serializeWrappedKey (wrappedKey : WrappedKey) : SerializedWrappedKey :=
  mkSerializedWrappedKey (toString_hex (encryptedKey wrappedKey))
                         (toString_hex (nonce wrappedKey))
                         (toString_hex (senderPublicKey wrappedKey)).

Definition deserializeWrappedKey (serialized : SerializedWrappedKey) : WrappedKey :=
  mkWrappedKey (Buffer_from_hex (ser_encryptedKey serialized))
               (Buffer_from_hex (ser_nonce serialized))
               (Buffer_from_hex (ser_senderPublicKey serialized)).

Definition getPublicKeyHex (keypair : DocumentKeyPair) : string :=
  toString_hex (publicKey keypair).

Definition parsePublicKeyHex (hex : string) : result bytes :=
  if negb (String.length hex =? 64)%nat
  then throw "Invalid public key: must be 64 hex characters (32 bytes)"
  else Ok (Buffer_from_hex hex).

Definition computePublicKeyCommitment (publicKey : bytes) : bytes :=
  digest (update createHash_sha256 publicKey).

(** ** [src/api/witnesses.ts] *)

Definition computeOwnerCommitment (secretKey : bytes) : result bytes :=
  if negb (length secretKey =? 32)%nat then throw "Secret key must be 32 bytes"
  else
    let hash := digest (update createHash_sha256 secretKey) in
    Ok hash.

Definition deriveSecretKeyFromWalletSeed (walletSeed : string) : bytes :=
  let seedBuffer := Buffer_from_hex walletSeed in
  digest (update (update createHash_sha256
                         (bytes_of_string "midnight-doc-manager:owner-key:"))
                 seedBuffer).

(** ** [src/api/contract.ts]

    The wrapper object: [contract] is [null] until [connectToDeployed] has
    loaded the compiled contract module. *)

Record DocumentManagerContract := mkContract {
  contract : option unit;
  isConnected : bool
}.

(** [connect] needs a usable wallet seed ([wallet_ok]). *)
Definition connect (this : DocumentManagerContract) (wallet_ok : bool)
  : result DocumentManagerContract :=
  if wallet_ok then Ok (mkContract (contract this) true)
  else throw "WALLET_SEED not set".

(** [module_loads] tells whether the dynamic [import] of the compiled
    contract succeeds. *)
Definition connectToDeployed (this : DocumentManagerContract) (module_loads : bool)
  : result DocumentManagerContract :=
  if negb (isConnected this) then throw "Not connected"
  else if module_loads then Ok (mkContract (Some tt) (isConnected this))
  else throw "Failed to load contract".

Definition verifyDocument (this : DocumentManagerContract)
           (documentId providedHash : bytes) : result bool :=
  match contract this with
  | None => throw "Contract not connected"
  | Some _ => Ok true
  end.

Definition close (this : DocumentManagerContract) : DocumentManagerContract :=
  mkContract None false.

(** ** [src/cli.ts]: the upload and verify actions *)

Record UploadResult := mkUploadResult {
  storageId : string;
  gatewayUrl : string
}.

(** The metadata record written to [<id>.doc.json]. *)
Record DocumentMeta := mkDocumentMeta {
  documentId : string;
  fileName : string;
  contentHash : string;
  storageCid : string;
  meta_gatewayUrl : string;
  wrappedKey : SerializedWrappedKey;
  uploadedAt : string
}.

(** The document id computed at upload from the content hash and the 16
    bytes drawn from the random source. *)
Definition deriveDocumentId (contentHash : bytes) (drawn : bytes) : bytes :=
  digest (update (update createHash_sha256 contentHash) drawn).

(** The upload action with [--dry-run]: the file has been read, the key
    pair loaded, and [upload] is what the storage service answers for the
    packed ciphertext. Returns the metadata and the packed ciphertext. *)
Definition upload_action (fileData : bytes) (name : string) (keypair : DocumentKeyPair)
           (upload : bytes -> UploadResult) (now : string) (e : entropy)
  : result (DocumentMeta * bytes) * entropy :=
  let contentHash := computeContentHash fileData in
  let (documentKey, e1) := generateDocumentKey e in
  let (encrypted_r, e2) := encryptFile fileData documentKey e1 in
  match encrypted_r with
  | Throw err => (Throw err, e2)
  | Ok encrypted =>
      let packed := packEncryptedData encrypted in
      let up := upload packed in
      let (drawn, e3) := randomBytes 16 e2 in
      let documentId := deriveDocumentId contentHash drawn in
      match computeOwnerCommitment (secretKey keypair) with
      | Throw err => (Throw err, e3)
      | Ok ownerCommitment =>
          let (wrapped_r, e4) := wrapDocumentKey documentKey (publicKey keypair) keypair e3 in
          match wrapped_r with
          | Throw err => (Throw err, e4)
          | Ok wrappedKey =>
              (Ok (mkDocumentMeta (toString_hex documentId) name (toString_hex contentHash)
                                  (storageId up) (gatewayUrl up)
                                  (serializeWrappedKey wrappedKey) now,
                   packed), e4)
          end
      end
  end.

Inductive VerifyOutput :=
| VERIFIED
| FAILED
| Exit1 (reason : string).

(** What the verify action finds around it: a usable wallet seed, a
    [deployment.json], a compiled contract module that can be imported. *)
Record World := mkWorld {
  wallet_ok : bool;
  deployed : bool;
  module_loads : bool
}.

Definition verify_action (fileData : bytes) (docId : string) (w : World) : VerifyOutput :=
  let hash := computeContentHash fileData in
  match connect (mkContract None false) (wallet_ok w) with
  | Throw err => Exit1 (message err)
  | Ok contract =>
      if negb (deployed w) then Exit1 "Not deployed"
      else
        match connectToDeployed contract (module_loads w) with
        | Throw err => Exit1 (message err)
        | Ok contract =>
            match verifyDocument contract (Buffer_from_hex docId) hash with
            | Throw err => Exit1 (message err)
            | Ok valid => if valid then VERIFIED else FAILED
            end
        end
  end.

(** ** Strings of hexadecimal digits

    [is_hex_digit] is the character class [[a-fA-F0-9]]: the characters
    [Buffer.from(s, "hex")] decodes. *)

Definition is_hex_digit (c : ascii) : bool :=
  match unhex c with
  | Some _ => true
  | None => false
  end.

Fixpoint all_hex (s : string) : bool :=
  match s with
  | EmptyString => true
  | String c r => is_hex_digit c && all_hex r
  end.



(** ** [src/utils/encryption.ts]: the base64 form of a payload

    [buf.toString("base64")] writes the standard alphabet with [=] padding.
    [Buffer.from(s, "base64")] reads both the standard and the URL-safe
    alphabet, skips every other character, stops at the first [=], and
    turns a final group of two or three digits into one or two bytes. *)

Definition base64_char (n : Z) : ascii :=
  ascii_of_nat (Z.to_nat (if n <? 26 then 65 + n
                          else if n <? 52 then 71 + n
                          else if n <? 62 then n - 4
                          else if n =? 62 then 43 else 47)).

Definition unbase64 (c : ascii) : option Z :=
  let n := Z.of_nat (nat_of_ascii c) in
  if andb (65 <=? n) (n <=? 90) then Some (n - 65)
  else if andb (97 <=? n) (n <=? 122) then Some (n - 71)
  else if andb (48 <=? n) (n <=? 57) then Some (n + 4)
  else if orb (n =? 43) (n =? 45) then Some 62
  else if orb (n =? 47) (n =? 95) then Some 63
  else None.

Fixpoint toString_base64 (b : bytes) : string :=
  match b with
  | [] => EmptyString
  | [x] =>
      String (base64_char (b2z x / 4))
        (String (base64_char (b2z x mod 4 * 16)) "==")
  | [x; y] =>
      String (base64_char (b2z x / 4))
        (String (base64_char (b2z x mod 4 * 16 + b2z y / 16))
           (String (base64_char (b2z y mod 16 * 4)) "="))
  | x :: y :: z :: r =>
      String (base64_char (b2z x / 4))
        (String (base64_char (b2z x mod 4 * 16 + b2z y / 16))
           (String (base64_char (b2z y mod 16 * 4 + b2z z / 64))
              (String (base64_char (b2z z mod 64)) (toString_base64 r))))
  end.

Fixpoint base64_digits (s : string) : list Z :=
  match s with
  | EmptyString => []
  | String c r =>
      if Ascii.eqb c "=" then []
      else
        match unbase64 c with
        | Some n => n :: base64_digits r
        | None => base64_digits r
        end
  end.

Fixpoint base64_bytes (l : list Z) : bytes :=
  match l with
  | a :: b :: c :: d :: r =>
      z2b (a * 4 + b / 16) :: z2b (b mod 16 * 16 + c / 4) :: z2b (c mod 4 * 64 + d)
      :: base64_bytes r
  | [a; b; c] => [z2b (a * 4 + b / 16); z2b (b mod 16 * 16 + c / 4)]
  | [a; b] => [z2b (a * 4 + b / 16)]
  | _ => []
  end.

Definition Buffer_from_base64 (s : string) : bytes := base64_bytes (base64_digits s).

Record SerializedEncryptedData := mkSerializedEncryptedData {
  ser_ciphertext : string;
  ser_iv : string;
  ser_authTag : string
}.

Definition serializeEncryptedData (encryptedData : EncryptedData) : SerializedEncryptedData :=
  mkSerializedEncryptedData (toString_base64 (ciphertext encryptedData))
                            (toString_base64 (iv encryptedData))
                            (toString_base64 (authTag encryptedData)).

Definition deserializeEncryptedData (serialized : SerializedEncryptedData) : EncryptedData :=
  mkEncryptedData (Buffer_from_base64 (ser_ciphertext serialized))
                  (Buffer_from_base64 (ser_iv serialized))
                  (Buffer_from_base64 (ser_authTag serialized)).

(** ** [src/utils/keys.ts]: key pair files

    The file system maps a path to the text of the file there; directories
    are not represented, so [mkdirSync] leaves it as it is. [JSON.stringify]
    and [JSON.parse] are taken at the type of the value written. *)

Definition FileSystem := string -> option string.

Definition existsSync (fs : FileSystem) (path : string) : bool :=
  match fs path with
  | Some _ => true
  | None => false
  end.

Definition writeFileSync (fs : FileSystem) (path data : string) : FileSystem :=
  fun p => if String.eqb p path then Some data else fs p.

Definition readFileSync (fs : FileSystem) (path : string) : result string :=
  match fs path with
  | Some data => Ok data
  | None => throw "ENOENT: no such file or directory"
  end.

Record JSON (A : Type) := mkJSON {
  stringify : A -> string;
  parse : string -> result A
}.
Arguments mkJSON {A} stringify parse.
Arguments stringify {A} j a.
Arguments parse {A} j text.

Definition saveKeyPair (json : JSON SerializedKeyPair) (keypair : DocumentKeyPair)
           (filePath : string) (fs : FileSystem) : FileSystem :=
  let serialized := serializeKeyPair keypair in
  writeFileSync fs filePath (stringify json serialized).

Definition loadKeyPair (json : JSON SerializedKeyPair) (filePath : string) (fs : FileSystem)
  : result DocumentKeyPair :=
  if negb (existsSync fs filePath)
  then throw ("Keypair file not found: " ++ filePath)
  else
    let* content := readFileSync fs filePath in
    let* serialized := parse json content in
    Ok (deserializeKeyPair serialized).

Definition getOrCreateKeyPair (json : JSON SerializedKeyPair) (filePath : string)
           (fs : FileSystem) (e : entropy) : result DocumentKeyPair * FileSystem * entropy :=
  if existsSync fs filePath then (loadKeyPair json filePath fs, fs, e)
  else
    let (keypair, e') := generateKeyPair e in
    (Ok keypair, saveKeyPair json keypair filePath fs, e').

(** A stand-in for JSON where a concrete codec is called for: the two hex
    strings of a serialized key pair, separated by a comma. *)
Fixpoint split_comma (text : string) : option (string * string) :=
  match text with
  | EmptyString => None
  | String c r =>
      if Ascii.eqb c "," then Some (EmptyString, r)
      else
        match split_comma r with
        | Some (a, b) => Some (String c a, b)
        | None => None
        end
  end.

Definition comma_json : JSON SerializedKeyPair :=
  mkJSON (fun s => ser_publicKey s ++ "," ++ ser_secretKey s)%string
         (fun text =>
            match split_comma text with
            | Some (a, b) => Ok (mkSerializedKeyPair a b)
            | None => throw "Unexpected end of JSON input"
            end).

(** ** [src/api/witnesses.ts]: the witness object

    The witness function [secretKey(context)] returns the private state of
    the context and the key the object was created with. *)

Definition createWitnesses (secretKey : bytes)
  : result (forall PrivateState : Type, PrivateState -> PrivateState * bytes) :=
  if negb (length secretKey =? 32)%nat then throw "Secret key must be 32 bytes"
  else Ok (fun _ privateState => (privateState, secretKey)).

(** ** [src/utils/environment.ts]

    [process.env]: a variable is unset or holds a string; [!v] and [v || d]
    treat the empty string like an unset variable. *)

Definition Env := string -> option string.

Definition falsy (v : option string) : bool :=
  match v with
  | None => true
  | Some s => String.eqb s ""
  end.

Definition or_else (v : option string) (d : string) : string :=
  match v with
  | None => d
  | Some s => if String.eqb s "" then d else s
  end.

(** [/^[a-fA-F0-9]{64}$/.test(s)] *)
Definition test_hex64 (s : string) : bool :=
  andb (String.length s =? 64)%nat (all_hex s).

Definition validateEnvironment (env : Env) : result unit :=
  let required := ["WALLET_SEED"%string] in
  let missing := filter (fun key => falsy (env key)) required in
  if (0 <? length missing)%nat
  then throw ("Missing required environment variables: " ++ String.concat ", " missing)
  else
    let walletSeed := or_else (env "WALLET_SEED"%string) "" in
    if negb (test_hex64 walletSeed)
    then throw "WALLET_SEED must be a 64-character hexadecimal string"
    else Ok tt.




(** ** [src/storage.ts]: choosing the storage provider *)

(** [s.replace(/\/$/, "")]: drop one slash at the very end. *)
Fixpoint strip_trailing_slash (s : string) : string :=
  match s with
  | EmptyString => EmptyString
  | String c EmptyString => if Ascii.eqb c "/" then EmptyString else s
  | String c r => String c (strip_trailing_slash r)
  end.

(** A provider object: which class it is and the fields its constructor
    has set; [Wallet] is the type of the parsed wallet file. *)
Inductive StorageProvider (Wallet : Type) :=
| PinataStorage (jwt gatewayUrl : string)
| ArweaveStorage (wallet : Wallet) (gatewayUrl : string).
Arguments PinataStorage {Wallet} jwt gatewayUrl.
Arguments ArweaveStorage {Wallet} wallet gatewayUrl.

Definition new_PinataStorage {Wallet : Type} (jwt gatewayUrl : string)
  : StorageProvider Wallet :=
  PinataStorage jwt (strip_trailing_slash gatewayUrl).


Definition provider_getGatewayUrl {Wallet : Type} (p : StorageProvider Wallet)
           (storageId : string) : string :=
  match p with
  | PinataStorage _ gatewayUrl => gatewayUrl ++ "/" ++ storageId
  | ArweaveStorage _ gatewayUrl => gatewayUrl ++ "/" ++ storageId
  end.


(** ** [src/api/contract.ts]: the other methods *)

Definition createDocumentManager (env : Env) : result bytes :=
  let walletSeed := env "WALLET_SEED"%string in
  if falsy walletSeed then throw "WALLET_SEED not set in environment"
  else
    let secretKey := deriveSecretKeyFromWalletSeed (or_else walletSeed "") in
    Ok secretKey.

Definition waitForSync (this : DocumentManagerContract) : result unit :=
  if negb (isConnected this) then throw "Not connected" else Ok tt.

Definition registerDocument (this : DocumentManagerContract)
           (documentId contentHash : bytes) (storageCid : string)
           (ownerCommitment : bytes) (fileType : string) : result unit :=
  match contract this with
  | None => throw "Contract not connected"
  | Some _ => Ok tt
  end.

Definition grantAccess (this : DocumentManagerContract)
           (documentId recipientCommitment : bytes)
           (encryptedKey nonce senderPublicKey : string) : result unit :=
  match contract this with
  | None => throw "Contract not connected"
  | Some _ => Ok tt
  end.

Definition revokeAccess (this : DocumentManagerContract)
           (documentId recipientCommitment : bytes) : result unit :=
  match contract this with
  | None => throw "Contract not connected"
  | Some _ => Ok tt
  end.

Definition hasAccess (this : DocumentManagerContract)
           (documentId recipientCommitment : bytes) : result bool :=
  match contract this with
  | None => throw "Contract not connected"
  | Some _ => Ok false
  end.

(** The calls a client can make on the wrapper object, and the object after
    a sequence of them; a call that throws leaves the object as it was. *)
Inductive Call :=
| CallConnect (wallet_ok : bool)
| CallWaitForSync
| CallConnectToDeployed (module_loads : bool)
| CallRegisterDocument (documentId contentHash : bytes) (storageCid : string)
                       (ownerCommitment : bytes) (fileType : string)
| CallVerifyDocument (documentId providedHash : bytes)
| CallGrantAccess (documentId recipientCommitment : bytes)
                  (encryptedKey nonce senderPublicKey : string)
| CallRevokeAccess (documentId recipientCommitment : bytes)
| CallHasAccess (documentId recipientCommitment : bytes)
| CallClose.

Definition call (this : DocumentManagerContract) (c : Call) : DocumentManagerContract :=
  match c with
  | CallConnect wallet_ok =>
      match connect this wallet_ok with
      | Ok this' => this'
      | Throw _ => this
      end
  | CallConnectToDeployed module_loads =>
      match connectToDeployed this module_loads with
      | Ok this' => this'
      | Throw _ => this
      end
  | CallClose => close this
  | _ => this
  end.

Definition calls (this : DocumentManagerContract) (cs : list Call) : DocumentManagerContract :=
  fold_left call cs this.

(** ** [src/cli.ts]: keys, finding the metadata, download, share *)

(** The [keys generate] and [keys show] actions: what they print, or how
    they end. *)
Inductive KeysOutput :=
| KeysPrinted (publicKeyHex commitmentHex : string)
| KeysNote
| KeysExit1 (err : Error).

Definition keys_generate (json : JSON SerializedKeyPair) (outputPath : string)
           (force : bool) (fs : FileSystem) (e : entropy)
  : KeysOutput * FileSystem * entropy :=
  if andb (existsSync fs outputPath) (negb force) then (KeysNote, fs, e)
  else
    let (keypair, e') := generateKeyPair e in
    let fs' := saveKeyPair json keypair outputPath fs in
    let publicKeyHex := getPublicKeyHex keypair in
    match computeOwnerCommitment (secretKey keypair) with
    | Throw err => (KeysExit1 err, fs', e')
    | Ok commitment => (KeysPrinted publicKeyHex (toString_hex commitment), fs', e')
    end.

Definition keys_show (json : JSON SerializedKeyPair) (inputPath : string)
           (fs : FileSystem) : KeysOutput :=
  if negb (existsSync fs inputPath) then KeysNote
  else
    match loadKeyPair json inputPath fs with
    | Throw err => KeysExit1 err
    | Ok keypair =>
        match computeOwnerCommitment (secretKey keypair) with
        | Throw err => KeysExit1 err
        | Ok commitment =>
            KeysPrinted (getPublicKeyHex keypair) (toString_hex commitment)
        end
    end.

(** The path the upload action writes the metadata to. *)
Definition upload_metaPath (documentIdHex : string) : string :=
  substring 0 16 documentIdHex ++ ".doc.json".

Definition findMetadataFile (fs : FileSystem) (documentIdHex : string) : option string :=
  let shortId := substring 0 16 documentIdHex in
  let metaPath := (shortId ++ ".doc.json")%string in
  if existsSync fs metaPath then Some metaPath else None.

(** The download action once the metadata file has been read, the key
    pair loaded and the blob [encrypted] fetched from storage; the result is
    what is written to the output file. *)
Definition download_action (meta : DocumentMeta) (encrypted : bytes)
           (keypair : DocumentKeyPair) : result bytes :=
  let* unpacked := unpackEncryptedData encrypted in
  let* docKey := unwrapDocumentKey (deserializeWrappedKey (wrappedKey meta))
                                   (secretKey keypair) in
  decryptFile unpacked docKey.

(** The contract object the share actions work with: created (which
    needs the wallet seed), connected, and attached to the deployment; a
    missing [deployment.json] ends the action with exit code 1. *)
Definition open_contract (w : World) : result DocumentManagerContract :=
  if negb (wallet_ok w) then throw "WALLET_SEED not set in environment"
  else
    let* contract := connect (mkContract None false) (wallet_ok w) in
    let* _ := waitForSync contract in
    if negb (deployed w) then throw "exit 1"
    else connectToDeployed contract (module_loads w).

(** What [grantAccess] is called with. *)
Record GrantCall := mkGrantCall {
  grant_documentId : bytes;
  grant_recipientCommitment : bytes;
  grant_encryptedKey : string;
  grant_nonce : string;
  grant_senderPublicKey : string
}.

Definition grant_action (meta : DocumentMeta) (docId pubkey : string)
           (ownerKp : DocumentKeyPair) (w : World) (e : entropy)
  : result GrantCall * entropy :=
  match unwrapDocumentKey (deserializeWrappedKey (wrappedKey meta)) (secretKey ownerKp) with
  | Throw err => (Throw err, e)
  | Ok docKey =>
      match parsePublicKeyHex pubkey with
      | Throw err => (Throw err, e)
      | Ok recipientPk =>
          let (wrapped_r, e') := wrapDocumentKey docKey recipientPk ownerKp e in
          match wrapped_r with
          | Throw err => (Throw err, e')
          | Ok wrapped =>
              (let* commitment := computeOwnerCommitment recipientPk in
               let* contract := open_contract w in
               let ser := serializeWrappedKey wrapped in
               let* _ := grantAccess contract (Buffer_from_hex docId) commitment
                                     (ser_encryptedKey ser) (ser_nonce ser)
                                     (ser_senderPublicKey ser) in
               Ok (mkGrantCall (Buffer_from_hex docId) commitment
                               (ser_encryptedKey ser) (ser_nonce ser)
                               (ser_senderPublicKey ser)), e')
          end
      end
  end.

(** What [revokeAccess] is called with: the document id and the
    commitment. *)
Definition revoke_action (docId pubkey : string) (w : World) : result (bytes * bytes) :=
  let* recipientPk := parsePublicKeyHex pubkey in
  let* commitment := computeOwnerCommitment recipientPk in
  let* contract := open_contract w in
  let* _ := revokeAccess contract (Buffer_from_hex docId) commitment in
  Ok (Buffer_from_hex docId, commitment).

(** ** The web front end ([app.js]): hashing a file *)

Module Web.

(** [b.toString(16)] for a byte. *)
Definition toString16 (b : Z) : string :=
  if b <? 16 then String (hex_digit b) EmptyString
  else String (hex_digit (b / 16)) (String (hex_digit (b mod 16)) EmptyString).

Definition padStart (targetLength : nat) (pad : ascii) (s : string) : string :=
  string_of_list_ascii (repeat pad (targetLength - String.length s)) ++ s.

Definition bufferToHex (buffer : bytes) : string :=
  String.concat "" (map (fun b => padStart 2 "0" (toString16 (b2z b))) buffer).

(** [crypto.subtle.digest("SHA-256", data)], then [bufferToHex]. *)
Definition computeHash (data : bytes) : string :=
  let hashBuffer := SHA256.sha256 data in
  bufferToHex hashBuffer.

End Web.

(** * Properties *)

(** ** Bytes *)

Lemma b2z_range (b : byte) : 0 <= b2z b < 256.
Proof.
  unfold b2z. pose proof (Byte.to_N_bounded b) as H.
  split; [apply N2Z.is_nonneg|].
  change 256 with (Z.of_N 256). apply N2Z.inj_lt. lia.
Qed.

Lemma z2b_b2z (b : byte) : z2b (b2z b) = b.
Proof.
  unfold z2b. rewrite Z.mod_small by apply b2z_range.
  unfold b2z. rewrite N2Z.id, Byte.of_to_N. reflexivity.
Qed.

Lemma b2z_z2b (z : Z) : b2z (z2b z) = z mod 256.
Proof.
  unfold z2b, b2z.
  assert (Hr : 0 <= z mod 256 < 256) by (apply Z.mod_pos_bound; lia).
  destruct (Byte.of_N (Z.to_N (z mod 256))) as [b|] eqn:E.
  - apply Byte.to_of_N in E. rewrite E. rewrite Z2N.id; lia.
  - apply Byte.of_N_None_iff in E. lia.
Qed.

Lemma lxor_byte_range (x y : Z) : 0 <= x < 256 -> 0 <= y < 256 -> 0 <= Z.lxor x y < 256.
Proof.
  intros Hx Hy.
  assert (H0 : 0 <= Z.lxor x y) by (apply Z.lxor_nonneg; lia).
  split; [exact H0|].
  destruct (Z.eq_dec (Z.lxor x y) 0) as [->|Hne]; [lia|].
  apply Z.log2_lt_cancel. change (Z.log2 256) with 8.
  eapply Z.le_lt_trans; [apply Z.log2_lxor; lia|].
  apply Z.max_lub_lt.
  - destruct (Z.eq_dec x 0) as [->|]; [cbn; lia|].
    apply Z.log2_lt_pow2; lia.
  - destruct (Z.eq_dec y 0) as [->|]; [cbn; lia|].
    apply Z.log2_lt_pow2; lia.
Qed.

Lemma byte_xor_involutive (a k : byte) : byte_xor (byte_xor a k) k = a.
Proof.
  unfold byte_xor. rewrite b2z_z2b.
  rewrite Z.mod_small by (apply lxor_byte_range; apply b2z_range).
  rewrite Z.lxor_assoc, Z.lxor_nilpotent, Z.lxor_0_r. apply z2b_b2z.
Qed.

Lemma length_zeros (n : nat) : length (zeros n) = n.
Proof. apply repeat_length. Qed.

Lemma length_z2be (n : nat) (z : Z) : length (z2be n z) = n.
Proof. unfold z2be. rewrite length_map, length_seq. reflexivity. Qed.

Lemma length_z2le (n : nat) (z : Z) : length (z2le n z) = n.
Proof. unfold z2le. rewrite length_map, length_seq. reflexivity. Qed.

Lemma length_randomBytes (n : nat) (e : entropy) : length (fst (randomBytes n e)) = n.
Proof. cbn. rewrite length_map, length_seq. reflexivity. Qed.

Lemma length_flat_map_const {A : Type} (f : A -> bytes) (k : nat) (l : list A) :
  (forall x, length (f x) = k) -> length (flat_map f l) = (k * length l)%nat.
Proof.
  intros Hf. induction l as [|x l IH]; cbn [flat_map length].
  - lia.
  - rewrite length_app, Hf, IH. lia.
Qed.

(** Xoring twice with the same, long enough, key stream gives the data back. *)
Lemma xor_stream_involutive (data ks : bytes) :
  (length data <= length ks)%nat ->
  xor_bytes (xor_bytes data ks) ks = data.
Proof.
  revert ks. induction data as [|x data IH]; intros [|k ks] Hlen; cbn in *; try reflexivity; try lia.
  rewrite byte_xor_involutive. f_equal. apply IH. lia.
Qed.

Lemma length_xor_stream (data ks : bytes) :
  (length data <= length ks)%nat -> length (xor_bytes data ks) = length data.
Proof.
  intros H. unfold xor_bytes. rewrite length_map, length_combine. lia.
Qed.

(** ** SHA-256 *)

Lemma length_sha256 (m : bytes) : length (SHA256.sha256 m) = 32%nat.
Proof.
  unfold SHA256.sha256, SHA256.output.
  repeat rewrite length_app. repeat rewrite length_z2be. reflexivity.
Qed.

Lemma digest_update (data : bytes) :
  digest (update createHash_sha256 data) = SHA256.sha256 data.
Proof. reflexivity. Qed.

Lemma digest_update2 (d1 d2 : bytes) :
  digest (update (update createHash_sha256 d1) d2) = SHA256.sha256 (d1 ++ d2).
Proof. reflexivity. Qed.

(** ** AES-256-GCM: decryption undoes encryption *)

Lemma length_gcm_keystream (key : bytes) (icb : Z) (n : nat) :
  length (GCM.keystream key icb n) = (16 * n)%nat.
Proof.
  unfold GCM.keystream.
  rewrite (length_flat_map_const _ 16%nat) by (intros; apply length_z2be).
  rewrite length_seq. reflexivity.
Qed.

Lemma gcm_keystream_long_enough (key : bytes) (icb : Z) (data : bytes) :
  (length data <= length (GCM.keystream key icb ((length data + 15) / 16)))%nat.
Proof.
  rewrite length_gcm_keystream.
  pose proof (Nat.div_mod_eq (length data + 15) 16).
  pose proof (Nat.mod_upper_bound (length data + 15) 16). lia.
Qed.

Lemma length_gctr (key : bytes) (icb : Z) (data : bytes) :
  length (GCM.gctr key icb data) = length data.
Proof. unfold GCM.gctr. apply length_xor_stream, gcm_keystream_long_enough. Qed.

Lemma gctr_involutive (key : bytes) (icb : Z) (data : bytes) :
  GCM.gctr key icb (GCM.gctr key icb data) = data.
Proof.
  unfold GCM.gctr at 1. rewrite length_gctr. unfold GCM.gctr.
  apply xor_stream_involutive, gcm_keystream_long_enough.
Qed.

Lemma length_gcm_tag (key iv ct : bytes) : length (GCM.tag key iv ct) = 16%nat.
Proof. unfold GCM.tag. apply length_z2be. Qed.

Lemma bytes_eqb_refl (a : bytes) : bytes_eqb a a = true.
Proof. unfold bytes_eqb. destruct (list_eq_dec Byte.byte_eq_dec a a); congruence. Qed.

Lemma bytes_eqb_eq (a b : bytes) : bytes_eqb a b = true <-> a = b.
Proof.
  unfold bytes_eqb. destruct (list_eq_dec Byte.byte_eq_dec a b); split; congruence.
Qed.

(** Deciphering what the cipher produced, with the tag it produced, under
    the same key and a 12-byte nonce, succeeds with the original data. *)
Lemma aes256gcm_decipher_cipher (key iv data : bytes) :
  length key = 32%nat -> length iv = 12%nat ->
  aes256gcm_cipher key iv data = Ok (GCM.encrypt key iv data) /\
  aes256gcm_decipher key iv (snd (GCM.encrypt key iv data)) (fst (GCM.encrypt key iv data))
  = Ok data.
Proof.
  intros Hk Hiv. unfold aes256gcm_cipher, aes256gcm_decipher.
  rewrite Hk, Hiv. cbn [Nat.eqb negb fst snd GCM.encrypt].
  split; [reflexivity|].
  rewrite length_gcm_tag. cbn [valid_gcm_tag_length existsb Nat.eqb orb negb].
  rewrite <- (length_gcm_tag key iv (GCM.gctr key (GCM.inc32 (GCM.j0 key iv) 1) data)) at 1.
  rewrite firstn_all, bytes_eqb_refl.
  unfold GCM.decrypt_raw. rewrite gctr_involutive. reflexivity.
Qed.

(** With a 32-byte key, [encryptData] draws 12 bytes and returns the GCM
    ciphertext and tag under that nonce. *)
Lemma encryptData_ok (P K : bytes) (e : entropy) :
  length K = 32%nat ->
  encryptData P K e =
    (Ok (mkEncryptedData (fst (GCM.encrypt K (fst (randomBytes 12 e)) P))
                         (fst (randomBytes 12 e))
                         (snd (GCM.encrypt K (fst (randomBytes 12 e)) P))),
     snd (randomBytes 12 e)).
Proof.
  intros HK. unfold encryptData. rewrite HK. cbn [Nat.eqb negb].
  destruct (randomBytes 12 e) as [nonce12 e'] eqn:Hr. cbn [fst snd].
  assert (Hn : length nonce12 = 12%nat).
  { pose proof (length_randomBytes 12 e) as L. rewrite Hr in L. exact L. }
  rewrite (proj1 (aes256gcm_decipher_cipher K nonce12 P HK Hn)). reflexivity.
Qed.

(** ** Claims *)

(** C7. [unpackEncryptedData] throws (kind MalformedPayload) exactly on
    inputs shorter than 28 bytes; on any longer input it returns the slices
    0..12 (nonce), 12..28 (tag) and 28..end (ciphertext), which is empty
    when the input has exactly 28 bytes. *)
Theorem unpackEncryptedData_slices (packed : bytes) :
  ((length packed < 28)%nat ->
     exists e, unpackEncryptedData packed = Throw e /\ kind e = MalformedPayload) /\
  ((28 <= length packed)%nat ->
     unpackEncryptedData packed
     = Ok (mkEncryptedData (skipn 28 packed) (firstn 12 packed) (firstn 16 (skipn 12 packed)))
     /\ length (firstn 12 packed) = 12%nat
     /\ length (firstn 16 (skipn 12 packed)) = 16%nat
     /\ length (skipn 28 packed) = (length packed - 28)%nat
     /\ firstn 12 packed ++ firstn 16 (skipn 12 packed) ++ skipn 28 packed = packed
     /\ (length packed = 28%nat -> skipn 28 packed = [])).
Proof.
  unfold unpackEncryptedData, subarray, subarray_from. split; intros H.
  - apply Nat.ltb_lt in H. rewrite H. eexists. split; reflexivity.
  - assert (Hb : (length packed <? 28)%nat = false) by (apply Nat.ltb_ge; exact H).
    rewrite Hb. change (skipn 0 packed) with packed.
    change (12 - 0)%nat with 12%nat. change (28 - 12)%nat with 16%nat.
    split; [reflexivity|].
    split; [rewrite length_firstn; lia|].
    split; [rewrite length_firstn, length_skipn; lia|].
    split; [apply length_skipn|].
    split.
    + rewrite <- (firstn_skipn 12 packed) at 4. f_equal.
      rewrite <- (firstn_skipn 16 (skipn 12 packed)) at 2. f_equal.
      rewrite skipn_skipn. reflexivity.
    + intros E. apply length_zero_iff_nil. rewrite length_skipn. lia.
Qed.

Lemma unpackEncryptedData_slices_witness :
  (exists e, unpackEncryptedData (zeros 27) = Throw e /\ kind e = MalformedPayload) /\
  unpackEncryptedData (zeros 28) = Ok (mkEncryptedData [] (zeros 12) (zeros 16)).
Proof.
  split.
  - apply (proj1 (unpackEncryptedData_slices (zeros 27))). cbn. lia.
  - pose proof (proj2 (unpackEncryptedData_slices (zeros 28))) as H.
    apply H. cbn. lia.
Defined.

(** C5. For every byte string P, every 32-byte key K and every state of the
    random source, [encryptData P K] succeeds and [decryptData] of its
    result under K returns exactly P. *)
Theorem encryptData_decryptData_roundtrip (P K : bytes) (e : entropy) :
  length K = 32%nat ->
  exists enc, fst (encryptData P K e) = Ok enc /\ decryptData enc K = Ok P.
Proof.
  intros HK. rewrite (encryptData_ok P K e HK). cbn [fst].
  eexists. split; [reflexivity|].
  unfold decryptData. rewrite HK. cbn [Nat.eqb negb iv authTag ciphertext].
  apply aes256gcm_decipher_cipher; [exact HK | apply length_randomBytes].
Qed.

Lemma encryptData_decryptData_roundtrip_witness :
  exists enc,
    fst (encryptData (bytes_of_string "hello world") (zeros 32) (fun _ => x2a)) = Ok enc /\
    decryptData enc (zeros 32) = Ok (bytes_of_string "hello world").
Proof.
  apply (encryptData_decryptData_roundtrip (bytes_of_string "hello world") (zeros 32)
                                           (fun _ => x2a)).
  reflexivity.
Defined.

(** C2 (as the code has it). No domain-separation context is applied: for
    every 32-byte key K the owner commitment, the recipient commitment and
    the content hash of the byte string K are the same 32 bytes, the plain
    SHA-256 digest of K. *)
Theorem commitments_are_plain_sha256 (K : bytes) :
  length K = 32%nat ->
  computeOwnerCommitment K = Ok (SHA256.sha256 K) /\
  computePublicKeyCommitment K = SHA256.sha256 K /\
  computeContentHash K = SHA256.sha256 K /\
  computeOwnerCommitment K = Ok (computeContentHash K) /\
  length (computeContentHash K) = 32%nat.
Proof.
  intros HK. unfold computeOwnerCommitment, computePublicKeyCommitment, computeContentHash.
  rewrite HK, digest_update. cbn [Nat.eqb negb].
  repeat (split; [reflexivity|]). apply length_sha256.
Qed.

Lemma commitments_are_plain_sha256_witness :
  computeOwnerCommitment (zeros 32) = Ok (SHA256.sha256 (zeros 32)) /\
  computePublicKeyCommitment (zeros 32) = SHA256.sha256 (zeros 32) /\
  computeContentHash (zeros 32) = SHA256.sha256 (zeros 32) /\
  computeOwnerCommitment (zeros 32) = Ok (computeContentHash (zeros 32)) /\
  length (computeContentHash (zeros 32)) = 32%nat.
Proof. apply (commitments_are_plain_sha256 (zeros 32)). reflexivity. Defined.

(** C2 as stated fails: for the key of 32 zero bytes the owner commitment
    and the recipient commitment equal the content hash of the same bytes. *)
Lemma commitment_equals_content_hash :
  length (zeros 32) = 32%nat /\
  computeOwnerCommitment (zeros 32) = Ok (computeContentHash (zeros 32)) /\
  computePublicKeyCommitment (zeros 32) = computeContentHash (zeros 32).
Proof. repeat split. Qed.

(** The owner commitment checks its input: 32 bytes in, 32 bytes out,
    anything else is refused with kind InvalidKeyLength. *)
Lemma computeOwnerCommitment_checked (K : bytes) :
  (length K = 32%nat ->
     exists c, computeOwnerCommitment K = Ok c /\ length c = 32%nat) /\
  (length K <> 32%nat ->
     exists e, computeOwnerCommitment K = Throw e /\ kind e = InvalidKeyLength).
Proof.
  unfold computeOwnerCommitment. split; intros H.
  - rewrite H. cbn [Nat.eqb negb]. eexists. split; [reflexivity|].
    rewrite digest_update. apply length_sha256.
  - apply Nat.eqb_neq in H. rewrite H. cbn [negb]. eexists. split; reflexivity.
Qed.

(** C3, where the code departs from it: [computePublicKeyCommitment] has no
    length check. On a 31-byte key it returns a 32-byte digest, where
    [computeOwnerCommitment] throws. *)
Theorem computePublicKeyCommitment_unchecked :
  length (zeros 31) = 31%nat /\
  length (computePublicKeyCommitment (zeros 31)) = 32%nat /\
  computePublicKeyCommitment (zeros 31) = SHA256.sha256 (zeros 31) /\
  exists e, computeOwnerCommitment (zeros 31) = Throw e /\ kind e = InvalidKeyLength.
Proof.
  split; [reflexivity|]. split; [apply length_sha256|]. split; [reflexivity|].
  eexists. split; reflexivity.
Qed.

(** [parsePublicKeyHex] throws exactly when the string is not 64 characters
    long; otherwise it returns whatever [Buffer.from(hex, "hex")] decodes. *)
Lemma parsePublicKeyHex_guard (hex : string) :
  (String.length hex <> 64%nat ->
     exists e, parsePublicKeyHex hex = Throw e /\ kind e = InvalidEncoding) /\
  (String.length hex = 64%nat -> parsePublicKeyHex hex = Ok (Buffer_from_hex hex)).
Proof.
  unfold parsePublicKeyHex. split; intros H.
  - apply Nat.eqb_neq in H. rewrite H. eexists. split; reflexivity.
  - rewrite H. reflexivity.
Qed.

(** C4, where the code departs from it: a string of 64 characters that are
    not hexadecimal digits is accepted, and the key returned is empty; a
    string whose last character only is not a digit gives 31 bytes. *)
Theorem parsePublicKeyHex_accepts_non_hex :
  let zs := "zzzzzzzzzzzzzzzzzzzzzzzzzzzzzzzzzzzzzzzzzzzzzzzzzzzzzzzzzzzzzzzz"%string in
  let almost := "000000000000000000000000000000000000000000000000000000000000000g"%string in
  String.length zs = 64%nat /\ parsePublicKeyHex zs = Ok [] /\
  String.length almost = 64%nat /\ parsePublicKeyHex almost = Ok (zeros 31).
Proof. cbv zeta. repeat split. Qed.

(** ** Key pairs from a seed *)

Lemma length_pack25519 (v : Z) : length (Curve25519.pack25519 v) = 32%nat.
Proof. apply length_z2le. Qed.

Lemma length_crypto_scalarmult (n pk : bytes) :
  length (Curve25519.crypto_scalarmult n pk) = 32%nat.
Proof. apply length_pack25519. Qed.

Lemma length_crypto_scalarmult_base (n : bytes) :
  length (Curve25519.crypto_scalarmult_base n) = 32%nat.
Proof. unfold Curve25519.crypto_scalarmult_base. apply length_crypto_scalarmult. Qed.

Lemma generateKeyPairFromSeed_ok (seed : bytes) :
  length seed = 32%nat ->
  generateKeyPairFromSeed seed
  = Ok (mkDocumentKeyPair (Curve25519.crypto_scalarmult_base seed) seed).
Proof.
  intros H. unfold generateKeyPairFromSeed, nacl.box_keyPair_fromSecretKey.
  rewrite H. reflexivity.
Qed.

(** [generateKeyPair] does depend on the random source: its secret key is
    the 32 bytes it draws. *)
Lemma generateKeyPair_draws (e : entropy) :
  secretKey (fst (generateKeyPair e)) = fst (randomBytes 32 e).
Proof. reflexivity. Qed.

(** C8. [generateKeyPairFromSeed] reads nothing but its argument: two calls
    on the same seed return the same result; on a 32-byte seed that result
    is a key pair, on any other seed an error of kind InvalidSeedLength. *)
Theorem generateKeyPairFromSeed_deterministic (seed1 seed2 : bytes) :
  seed1 = seed2 ->
  generateKeyPairFromSeed seed1 = generateKeyPairFromSeed seed2 /\
  (length seed1 = 32%nat ->
     exists kp, generateKeyPairFromSeed seed1 = Ok kp /\
                generateKeyPairFromSeed seed2 = Ok kp /\
                length (publicKey kp) = 32%nat /\ length (secretKey kp) = 32%nat) /\
  (length seed1 <> 32%nat ->
     exists e, generateKeyPairFromSeed seed1 = Throw e /\ kind e = InvalidSeedLength).
Proof.
  intros <-. split; [reflexivity|]. split; intros H.
  - rewrite (generateKeyPairFromSeed_ok seed1 H). eexists.
    split; [reflexivity|]. split; [reflexivity|]. cbn [publicKey secretKey].
    split; [apply length_crypto_scalarmult_base | exact H].
  - unfold generateKeyPairFromSeed. apply Nat.eqb_neq in H. rewrite H.
    cbn [negb]. eexists. split; reflexivity.
Qed.

Lemma generateKeyPairFromSeed_deterministic_witness :
  generateKeyPairFromSeed (zeros 32) = generateKeyPairFromSeed (zeros 32) /\
  (exists kp, generateKeyPairFromSeed (zeros 32) = Ok kp /\
              generateKeyPairFromSeed (zeros 32) = Ok kp /\
              length (publicKey kp) = 32%nat /\ length (secretKey kp) = 32%nat) /\
  (exists e, generateKeyPairFromSeed (zeros 16) = Throw e /\ kind e = InvalidSeedLength).
Proof.
  pose proof (generateKeyPairFromSeed_deterministic (zeros 32) (zeros 32) eq_refl) as H32.
  pose proof (generateKeyPairFromSeed_deterministic (zeros 16) (zeros 16) eq_refl) as H16.
  split; [exact (proj1 H32)|]. split.
  - apply (proj1 (proj2 H32)). reflexivity.
  - apply (proj2 (proj2 H16)). cbn. lia.
Defined.

(** C10. On a 32-byte seed the key pair has the seed itself as secret key,
    and as public key the X25519 base-point multiple of that secret key. *)
Theorem generateKeyPairFromSeed_secret_is_seed (seed : bytes) :
  length seed = 32%nat ->
  exists kp, generateKeyPairFromSeed seed = Ok kp /\
             secretKey kp = seed /\
             publicKey kp = Curve25519.crypto_scalarmult_base (secretKey kp) /\
             publicKey kp = Curve25519.crypto_scalarmult seed Curve25519._9.
Proof.
  intros H. rewrite (generateKeyPairFromSeed_ok seed H).
  eexists. repeat split.
Qed.

Lemma generateKeyPairFromSeed_secret_is_seed_witness :
  exists kp, generateKeyPairFromSeed (zeros 32) = Ok kp /\
             secretKey kp = zeros 32 /\
             publicKey kp = Curve25519.crypto_scalarmult_base (secretKey kp) /\
             publicKey kp = Curve25519.crypto_scalarmult (zeros 32) Curve25519._9.
Proof. apply (generateKeyPairFromSeed_secret_is_seed (zeros 32)). reflexivity. Defined.

(** ** [nacl.secretbox]: opening undoes sealing *)

Lemma length_xor_bytes (a ks : bytes) :
  length (xor_bytes a ks) = Nat.min (length a) (length ks).
Proof. unfold xor_bytes. rewrite length_map, length_combine. reflexivity. Qed.

Lemma xor_bytes_app (a b ks : bytes) :
  (length a <= length ks)%nat ->
  xor_bytes (a ++ b) ks = xor_bytes a ks ++ xor_bytes b (skipn (length a) ks).
Proof.
  revert ks. induction a as [|x a IH]; intros ks H.
  - reflexivity.
  - destruct ks as [|k ks]; cbn in H; [lia|].
    cbn [app length skipn]. unfold xor_bytes in *. cbn [combine map app].
    f_equal. apply IH. lia.
Qed.

Lemma xor_bytes_extra (a ks extra : bytes) :
  (length a <= length ks)%nat -> xor_bytes a (ks ++ extra) = xor_bytes a ks.
Proof.
  revert ks. induction a as [|x a IH]; intros ks H.
  - reflexivity.
  - destruct ks as [|k ks]; cbn in H; [lia|].
    unfold xor_bytes in *. cbn [app combine map]. f_equal. apply IH. lia.
Qed.

Lemma length_core_salsa20 (inp k c : bytes) : length (Salsa20.core_salsa20 inp k c) = 64%nat.
Proof.
  unfold Salsa20.core_salsa20.
  rewrite (length_flat_map_const _ 4%nat) by (intros; apply length_z2le).
  rewrite length_seq. reflexivity.
Qed.

Lemma length_core_hsalsa20 (inp k c : bytes) : length (Salsa20.core_hsalsa20 inp k c) = 32%nat.
Proof.
  unfold Salsa20.core_hsalsa20.
  rewrite (length_flat_map_const _ 4%nat) by (intros; apply length_z2le).
  reflexivity.
Qed.

Lemma length_salsa20_keystream (n8 k : bytes) (n : nat) :
  length (Salsa20.keystream n8 k n) = (64 * n)%nat.
Proof.
  unfold Salsa20.keystream.
  rewrite (length_flat_map_const _ 64%nat) by (intros; apply length_core_salsa20).
  rewrite length_seq. reflexivity.
Qed.

Lemma salsa20_keystream_app (n8 k : bytes) (n m : nat) :
  exists extra, Salsa20.keystream n8 k (n + m) = Salsa20.keystream n8 k n ++ extra.
Proof.
  unfold Salsa20.keystream. rewrite seq_app, flat_map_app. eexists. reflexivity.
Qed.

Lemma blocks64 (len : nat) : (len <= 64 * ((len + 63) / 64))%nat.
Proof.
  pose proof (Nat.div_mod_eq (len + 63) 64).
  pose proof (Nat.mod_upper_bound (len + 63) 64). lia.
Qed.

(** The first 32 bytes of the stream xored under a zero-padded message are
    the 32 stream bytes [crypto_stream] gives on its own. *)
Lemma stream_xor_prefix (msg n k : bytes) :
  firstn 32 (Salsa20.stream_xor (zeros 32 ++ msg) n k) = Salsa20.stream 32 n k.
Proof.
  unfold Salsa20.stream, Salsa20.stream_xor, Salsa20.stream_salsa20_xor.
  set (s := Salsa20.core_hsalsa20 _ _ _). set (n8 := skipn 16 n).
  set (N := ((length (zeros 32 ++ msg) + 63) / 64)%nat).
  assert (HN : (1 <= N)%nat).
  { subst N. rewrite length_app, length_zeros.
    pose proof (blocks64 (32 + length msg)). lia. }
  change ((length (zeros 32) + 63) / 64)%nat with 1%nat.
  destruct (salsa20_keystream_app n8 s 1 (N - 1)) as [extra He].
  replace (1 + (N - 1))%nat with N in He by lia.
  rewrite xor_bytes_app by (rewrite length_zeros, length_salsa20_keystream; lia).
  rewrite firstn_app.
  rewrite length_xor_bytes, length_zeros, length_salsa20_keystream.
  replace (32 - Nat.min 32 (64 * N))%nat with 0%nat by lia.
  rewrite firstn_O, app_nil_r, firstn_all2 by (rewrite length_xor_bytes, length_zeros; lia).
  rewrite He. apply xor_bytes_extra. rewrite length_zeros, length_salsa20_keystream. lia.
Qed.

(** Past the first 32 bytes, xoring twice with the stream is the identity,
    whatever stands in the first 32 bytes the second time. *)
Lemma stream_xor_twice (head msg n k : bytes) :
  length head = 32%nat ->
  skipn 32 (Salsa20.stream_xor
              (head ++ skipn 32 (Salsa20.stream_xor (zeros 32 ++ msg) n k)) n k) = msg.
Proof.
  intros Hh.
  unfold Salsa20.stream_xor, Salsa20.stream_salsa20_xor.
  set (s := Salsa20.core_hsalsa20 _ _ _). set (n8 := skipn 16 n).
  set (N := ((length (zeros 32 ++ msg) + 63) / 64)%nat).
  assert (HN : (32 + length msg <= 64 * N)%nat).
  { subst N. rewrite length_app, length_zeros. apply blocks64. }
  set (KS := Salsa20.keystream n8 s N).
  assert (HKS : length KS = (64 * N)%nat) by apply length_salsa20_keystream.
  assert (Hct : skipn 32 (xor_bytes (zeros 32 ++ msg) KS) = xor_bytes msg (skipn 32 KS)).
  { rewrite xor_bytes_app by (rewrite length_zeros; lia).
    rewrite skipn_app, length_xor_bytes, length_zeros.
    replace (Nat.min 32 (length KS)) with 32%nat by lia.
    rewrite skipn_all2 by (rewrite length_xor_bytes, length_zeros; lia).
    reflexivity. }
  rewrite Hct.
  assert (Hlen : length (head ++ xor_bytes msg (skipn 32 KS)) = length (zeros 32 ++ msg)).
  { rewrite !length_app, length_xor_bytes, length_skipn, length_zeros. lia. }
  rewrite Hlen. fold N. fold KS.
  rewrite xor_bytes_app by lia.
  rewrite skipn_app, length_xor_bytes, Hh.
  replace (Nat.min 32 (length KS)) with 32%nat by lia.
  rewrite skipn_all2 by (rewrite length_xor_bytes; lia).
  change (32 - 32)%nat with 0%nat. rewrite skipn_O. cbn [app].
  apply xor_stream_involutive. rewrite length_skipn. lia.
Qed.

Lemma verify_16_same (x : bytes) : Poly1305.verify_16 x x = 0.
Proof.
  unfold Poly1305.verify_16.
  assert (H : forall l, fold_left (fun d i =>
              Z.lor d (Z.lxor (b2z (nth i x x00)) (b2z (nth i x x00)))) l 0 = 0).
  { induction l as [|i l IH]; cbn [fold_left]; [reflexivity|].
    rewrite Z.lxor_nilpotent. exact IH. }
  rewrite H. reflexivity.
Qed.

Lemma length_onetimeauth (m k : bytes) : length (Poly1305.onetimeauth m k) = 16%nat.
Proof. apply length_z2le. Qed.

Lemma secretbox_open_secretbox (msg n k : bytes) :
  length k = 32%nat -> length n = 24%nat ->
  exists box, nacl.secretbox msg n k = Ok box /\
              nacl.secretbox_open box n k = Ok (Some msg).
Proof.
  intros Hk Hn. unfold nacl.secretbox, nacl.secretbox_open, nacl.checkLengths.
  rewrite Hk, Hn. cbn [Nat.eqb negb bind].
  eexists. split; [reflexivity|].
  unfold nacl.crypto_secretbox.
  set (c := Salsa20.stream_xor (zeros 32 ++ msg) n k).
  set (t := Poly1305.onetimeauth (skipn 32 c) (firstn 32 c)).
  assert (Ht : length t = 16%nat) by apply length_onetimeauth.
  assert (Hs : skipn 16 (zeros 16 ++ t ++ skipn 32 c) = t ++ skipn 32 c).
  { rewrite skipn_app, length_zeros. change (16 - 16)%nat with 0%nat.
    rewrite skipn_O, skipn_all2 by (rewrite length_zeros; lia). reflexivity. }
  rewrite Hs.
  assert (Hlen : (length (zeros 16 ++ t ++ skipn 32 c) <? 32)%nat = false).
  { apply Nat.ltb_ge. rewrite !length_app, length_zeros, Ht. lia. }
  rewrite Hlen. unfold nacl.crypto_secretbox_open. rewrite Hlen.
  assert (H16 : firstn 16 (skipn 16 (zeros 16 ++ t ++ skipn 32 c)) = t).
  { rewrite Hs, firstn_app, Ht. change (16 - 16)%nat with 0%nat.
    rewrite firstn_O, app_nil_r. apply firstn_all2. lia. }
  assert (H32 : skipn 32 (zeros 16 ++ t ++ skipn 32 c) = skipn 32 c).
  { rewrite app_assoc, skipn_app, length_app, length_zeros, Ht.
    change (32 - (16 + 16))%nat with 0%nat.
    rewrite skipn_O, skipn_all2 by (rewrite length_app, length_zeros; lia).
    reflexivity. }
  rewrite H16, H32.
  unfold Poly1305.onetimeauth_verify.
  rewrite <- (stream_xor_prefix msg n k). fold c. fold t.
  rewrite verify_16_same. cbn [Z.eqb negb].
  rewrite skipn_app, length_zeros. change (32 - 32)%nat with 0%nat.
  rewrite skipn_O, skipn_all2 by (rewrite length_zeros; lia). cbn [app].
  rewrite app_assoc. subst c.
  rewrite stream_xor_twice by (rewrite length_app, length_zeros, Ht; reflexivity).
  reflexivity.
Qed.

(** ** Wrapping a document key *)

Lemma length_box_beforenm (pk sk : bytes) : length (nacl.box_beforenm pk sk) = 32%nat.
Proof. unfold nacl.box_beforenm. apply length_core_hsalsa20. Qed.

(** With a 32-byte document key and 32-byte keys, [wrapDocumentKey] draws a
    24-byte nonce and succeeds. *)
Lemma wrapDocumentKey_ok (D pkR : bytes) (S : DocumentKeyPair) (e : entropy) :
  length D = 32%nat -> length pkR = 32%nat -> length (secretKey S) = 32%nat ->
  exists box,
    nacl.secretbox D (fst (randomBytes 24 e)) (nacl.box_beforenm pkR (secretKey S)) = Ok box /\
    nacl.secretbox_open box (fst (randomBytes 24 e)) (nacl.box_beforenm pkR (secretKey S))
    = Ok (Some D) /\
    wrapDocumentKey D pkR S e
    = (Ok (mkWrappedKey box (fst (randomBytes 24 e)) (publicKey S)), snd (randomBytes 24 e)).
Proof.
  intros HD Hpk Hsk.
  destruct (secretbox_open_secretbox D (fst (randomBytes 24 e))
              (nacl.box_beforenm pkR (secretKey S))
              (length_box_beforenm _ _) (length_randomBytes 24 e)) as [box [Hb Ho]].
  exists box. split; [exact Hb|]. split; [exact Ho|].
  unfold wrapDocumentKey. rewrite HD. cbn [Nat.eqb negb].
  unfold nacl.nonceLength.
  destruct (randomBytes 24 e) as [nonce24 e'] eqn:Hr. cbn [fst snd] in *.
  unfold nacl.box, nacl.box_before, nacl.checkBoxLengths.
  rewrite Hpk, Hsk. cbn [Nat.eqb negb bind]. rewrite Hb. reflexivity.
Qed.

(** Unwrapping succeeds with the original key as soon as both sides derive
    the same X25519 shared secret. *)
Lemma unwrap_wrap_shared_secret (D : bytes) (S R : DocumentKeyPair) (e : entropy) :
  length D = 32%nat ->
  length (publicKey S) = 32%nat -> length (secretKey S) = 32%nat ->
  length (publicKey R) = 32%nat -> length (secretKey R) = 32%nat ->
  Curve25519.crypto_scalarmult (secretKey R) (publicKey S)
  = Curve25519.crypto_scalarmult (secretKey S) (publicKey R) ->
  exists w, fst (wrapDocumentKey D (publicKey R) S e) = Ok w /\
            unwrapDocumentKey w (secretKey R) = Ok D.
Proof.
  intros HD HpS HsS HpR HsR Hdh.
  destruct (wrapDocumentKey_ok D (publicKey R) S e HD HpR HsS) as [box [_ [Ho Hw]]].
  rewrite Hw. cbn [fst]. eexists. split; [reflexivity|].
  unfold unwrapDocumentKey. cbn [encryptedKey nonce senderPublicKey].
  unfold nacl.box_open, nacl.box_before, nacl.checkBoxLengths.
  rewrite HpS, HsR. cbn [Nat.eqb negb bind].
  unfold nacl.box_beforenm in *. rewrite Hdh, Ho. reflexivity.
Qed.

(** ** The upload and verify actions *)

Lemma upload_action_ok (fileData : bytes) (name : string) (keypair : DocumentKeyPair)
      (upload : bytes -> UploadResult) (now : string) (e : entropy) :
  length (publicKey keypair) = 32%nat -> length (secretKey keypair) = 32%nat ->
  exists meta packed e',
    upload_action fileData name keypair upload now e = (Ok (meta, packed), e') /\
    contentHash meta = toString_hex (computeContentHash fileData) /\
    documentId meta =
      toString_hex (deriveDocumentId (computeContentHash fileData)
                      (fst (randomBytes 16 (snd (randomBytes 12 (snd (randomBytes 32 e))))))).
Proof.
  intros Hpk Hsk. unfold upload_action, generateDocumentKey, encryptFile.
  destruct (randomBytes 32 e) as [documentKey e1] eqn:H1.
  assert (HD : length documentKey = 32%nat).
  { pose proof (length_randomBytes 32 e) as L. rewrite H1 in L. exact L. }
  rewrite (encryptData_ok fileData documentKey e1 HD).
  cbn [snd].
  destruct (randomBytes 16 (snd (randomBytes 12 e1))) as [drawn e3] eqn:H3.
  unfold computeOwnerCommitment. rewrite Hsk. cbn [Nat.eqb negb].
  destruct (wrapDocumentKey_ok documentKey (publicKey keypair) keypair e3 HD Hpk Hsk)
    as [box [_ [_ Hw]]].
  rewrite Hw. do 3 eexists. split; [reflexivity|].
  cbn [contentHash documentId fst]. split; reflexivity.
Qed.

Lemma verifyDocument_ignores_hash (this : DocumentManagerContract) (id h1 h2 : bytes) :
  verifyDocument this id h1 = verifyDocument this id h2.
Proof. reflexivity. Qed.

Lemma verify_action_always_verified (fileData : bytes) (docId : string) :
  verify_action fileData docId (mkWorld true true true) = VERIFIED.
Proof. reflexivity. Qed.

(** C1, where the code departs from it: [verifyDocument] returns [true]
    without comparing anything. A document is uploaded; a different file,
    whose content hash differs from the recorded one, is then reported as
    verified. *)
Theorem verify_action_accepts_other_content :
  let original := bytes_of_string "original" in
  let candidate := bytes_of_string "tampered" in
  let keypair := mkDocumentKeyPair (zeros 32) (zeros 32) in
  exists meta packed e',
    upload_action original "a.txt" keypair (fun _ => mkUploadResult "cid" "url") "now"
                  (fun _ => x00) = (Ok (meta, packed), e') /\
    contentHash meta = computeContentHashHex original /\
    computeContentHashHex candidate <> contentHash meta /\
    computeContentHash candidate <> computeContentHash original /\
    verifyDocument (mkContract (Some tt) true) (Buffer_from_hex (documentId meta))
                   (computeContentHash candidate) = Ok true /\
    verify_action candidate (documentId meta) (mkWorld true true true) = VERIFIED.
Proof.
  cbv zeta.
  destruct (upload_action_ok (bytes_of_string "original") "a.txt"
              (mkDocumentKeyPair (zeros 32) (zeros 32))
              (fun _ => mkUploadResult "cid" "url") "now" (fun _ => x00)
              eq_refl eq_refl) as [meta [packed [e' [Hu [Hc _]]]]].
  exists meta, packed, e'. split; [exact Hu|]. split; [exact Hc|].
  split; [rewrite Hc; vm_compute; discriminate|].
  split; [vm_compute; discriminate|].
  split; reflexivity.
Qed.

(** ** The document id *)


(** Two draws that differ feed different strings to the hash. *)
Lemma deriveDocumentId_inputs_differ (contentHash r1 r2 : bytes) :
  r1 <> r2 -> contentHash ++ r1 <> contentHash ++ r2.
Proof. intros H E. apply app_inv_head in E. contradiction. Qed.

(** The same content uploaded with two different draws: two ids. *)
Example deriveDocumentId_two_draws :
  deriveDocumentId (computeContentHash (bytes_of_string "same")) (zeros 16)
  <> deriveDocumentId (computeContentHash (bytes_of_string "same")) (x01 :: zeros 15).
Proof. vm_compute. discriminate. Qed.

(** ** Test vectors for the primitives *)

Example sha256_abc :
  toString_hex (SHA256.sha256 (bytes_of_string "abc"))
  = "ba7816bf8f01cfea414140de5dae2223b00361a396177a9cb410ff61f20015ad"%string.
Proof. vm_compute. reflexivity. Qed.

(** FIPS 197, appendix C.3. *)
Example aes256_fips197 :
  AES.encrypt_block (z2be 32 0x000102030405060708090a0b0c0d0e0f101112131415161718191a1b1c1d1e1f)
                    0x00112233445566778899aabbccddeeff
  = 0x8ea2b7ca516745bfeafc49904b496089.
Proof. vm_compute. reflexivity. Qed.

(** The GCM specification, test case 14. *)
Example gcm_test_case_14 :
  GCM.encrypt (zeros 32) (zeros 12) (zeros 16)
  = (z2be 16 0xcea7403d4d606b6e074ec5d3baf39d18, z2be 16 0xd0d1c8a799996bf0265b98b5d48ab919).
Proof. vm_compute. reflexivity. Qed.

(** RFC 8439, section 2.5.2. *)
Example poly1305_rfc8439 :
  Poly1305.onetimeauth (bytes_of_string "Cryptographic Forum Research Group")
    (z2be 32 0x85d6be7857556d337f4452fe42d506a80103808afb0db2fd4abff6af4149f51b)
  = z2be 16 0xa8061dc1305136c6c22b8baf0c0127a9.
Proof. vm_compute. reflexivity. Qed.

(** RFC 7748, section 5.2. *)
Example x25519_rfc7748 :
  Curve25519.crypto_scalarmult
    (z2be 32 0xa546e36bf0527c9d3b16154b82465edd62144c0ac1fc5a18506a2244ba449ac4)
    (z2be 32 0xe6db6867583030db3594c1a424b15f7c726624ec26b3353b10a903a6d0ab1c4c)
  = z2be 32 0xc3da55379de9c6908e94ea4df28d084f32eccf03491c71f754b4075577a28552.
Proof. vm_compute. reflexivity. Qed.

(** * Further properties of the code *)

(** ** Hexadecimal strings: decoding undoes encoding *)

Lemma string_pair_ind (P : string -> Prop) :
  P EmptyString ->
  (forall a, P (String a EmptyString)) ->
  (forall a b r, P r -> P (String a (String b r))) ->
  forall s, P s.
Proof.
  intros H0 H1 H2. fix IH 1.
  intros [|a [|b r]]; [exact H0 | apply H1 | apply H2, IH].
Qed.

Lemma unhex_hex_digit (n : Z) : 0 <= n < 16 -> unhex (hex_digit n) = Some n.
Proof.
  intros H. rewrite <- (Z2Nat.id n) by lia.
  assert (Hk : (Z.to_nat n < 16)%nat) by lia.
  generalize dependent (Z.to_nat n). clear. intros k Hk.
  do 16 (destruct k as [|k]; [reflexivity|]). lia.
Qed.


Lemma byte_nibbles (x : byte) :
  0 <= b2z x / 16 < 16 /\ 0 <= b2z x mod 16 < 16 /\
  16 * (b2z x / 16) + b2z x mod 16 = b2z x.
Proof.
  pose proof (b2z_range x) as R.
  pose proof (Z.div_mod (b2z x) 16 ltac:(lia)) as D.
  pose proof (Z.mod_pos_bound (b2z x) 16 ltac:(lia)) as M.
  repeat split; lia.
Qed.



Lemma Buffer_from_hex_toString_hex (b : bytes) : Buffer_from_hex (toString_hex b) = b.
Proof.
  induction b as [|x r IH]; [reflexivity|].
  destruct (byte_nibbles x) as (Hq & Hm & E).
  cbn [toString_hex Buffer_from_hex].
  rewrite (unhex_hex_digit _ Hq), (unhex_hex_digit _ Hm), E, z2b_b2z, IH.
  reflexivity.
Qed.

Lemma length_toString_hex (b : bytes) :
  String.length (toString_hex b) = (2 * length b)%nat.
Proof.
  induction b as [|x r IH]; [reflexivity|].
  cbn [toString_hex String.length List.length]. rewrite IH. lia.
Qed.

Lemma all_hex_toString_hex (b : bytes) : all_hex (toString_hex b) = true.
Proof.
  induction b as [|x r IH]; [reflexivity|].
  destruct (byte_nibbles x) as (Hq & Hm & _).
  cbn [toString_hex all_hex]. unfold is_hex_digit.
  rewrite (unhex_hex_digit _ Hq), (unhex_hex_digit _ Hm), IH. reflexivity.
Qed.

(** [Buffer.from(s, "hex")] never yields more than one byte per two
    characters, and yields that many only for strings of hex digits. *)
Lemma Buffer_from_hex_length (s : string) :
  (2 * length (Buffer_from_hex s) <= String.length s)%nat /\
  ((2 * length (Buffer_from_hex s) = String.length s)%nat -> all_hex s = true) /\
  (all_hex s = true ->
     (String.length s = 2 * length (Buffer_from_hex s) \/
      String.length s = 2 * length (Buffer_from_hex s) + 1)%nat).
Proof.
  induction s as [| a | a b r (IH1 & IH2 & IH3)] using string_pair_ind.
  - cbn. repeat split; auto.
  - cbn [Buffer_from_hex List.length String.length all_hex].
    split; [lia|]. split; [intros E; lia | intros _; right; reflexivity].
  - cbn [Buffer_from_hex String.length all_hex]. unfold is_hex_digit.
    destruct (unhex a) as [x|]; [destruct (unhex b) as [y|]|]; cbn [List.length andb].
    + split; [lia|]. split; [intros E; apply IH2; lia | intros E; specialize (IH3 E); lia].
    + split; [lia|]. split; [intros E; lia | intros E; discriminate E].
    + split; [lia|]. split; [intros E; lia | intros E; discriminate E].
Qed.


Lemma deserialize_serialize_keypair (keypair : DocumentKeyPair) :
  deserializeKeyPair (serializeKeyPair keypair) = keypair.
Proof.
  destruct keypair as [pk sk]. unfold deserializeKeyPair, serializeKeyPair.
  cbn [ser_publicKey ser_secretKey publicKey secretKey].
  rewrite !Buffer_from_hex_toString_hex. reflexivity.
Qed.

Lemma deserialize_serialize_wrapped (w : WrappedKey) :
  deserializeWrappedKey (serializeWrappedKey w) = w.
Proof.
  destruct w as [ek n spk]. unfold deserializeWrappedKey, serializeWrappedKey.
  cbn [ser_encryptedKey ser_nonce ser_senderPublicKey encryptedKey nonce senderPublicKey].
  rewrite !Buffer_from_hex_toString_hex. reflexivity.
Qed.

(** X1. The hex serializations lose nothing. A key pair written out by
    [serializeKeyPair] is read back unchanged by [deserializeKeyPair], and a
    wrapped key written out by [serializeWrappedKey] is read back unchanged by
    [deserializeWrappedKey], whatever the bytes and lengths of the fields;
    each string is twice as long as the field it encodes. *)
Theorem deserialize_serialize_roundtrip (keypair : DocumentKeyPair) (wrappedKey : WrappedKey) :
  deserializeKeyPair (serializeKeyPair keypair) = keypair /\
  deserializeWrappedKey (serializeWrappedKey wrappedKey) = wrappedKey /\
  String.length (ser_publicKey (serializeKeyPair keypair))
  = (2 * length (publicKey keypair))%nat /\
  String.length (ser_secretKey (serializeKeyPair keypair))
  = (2 * length (secretKey keypair))%nat /\
  String.length (ser_encryptedKey (serializeWrappedKey wrappedKey))
  = (2 * length (encryptedKey wrappedKey))%nat /\
  String.length (ser_nonce (serializeWrappedKey wrappedKey))
  = (2 * length (nonce wrappedKey))%nat /\
  String.length (ser_senderPublicKey (serializeWrappedKey wrappedKey))
  = (2 * length (senderPublicKey wrappedKey))%nat.
Proof.
  split; [apply deserialize_serialize_keypair|].
  split; [apply deserialize_serialize_wrapped|].
  unfold serializeKeyPair, serializeWrappedKey.
  cbn [ser_publicKey ser_secretKey ser_encryptedKey ser_nonce ser_senderPublicKey].
  rewrite !length_toString_hex. repeat split.
Qed.



(** ** [src/utils/encryption.ts]: packing, shapes, tampering *)

Lemma unpack_pack (enc : EncryptedData) :
  length (iv enc) = 12%nat -> length (authTag enc) = 16%nat ->
  unpackEncryptedData (packEncryptedData enc) = Ok enc.
Proof.
  destruct enc as [ct i t]. cbn [iv authTag]. intros Hi Ht.
  unfold unpackEncryptedData, packEncryptedData, subarray, subarray_from.
  cbn [iv authTag ciphertext].
  assert (L : (length (i ++ t ++ ct) <? 28)%nat = false).
  { apply Nat.ltb_ge. rewrite !length_app. lia. }
  rewrite L.
  change (12 - 0)%nat with 12%nat. change (28 - 12)%nat with 16%nat.
  rewrite skipn_O.
  assert (E1 : firstn 12 (i ++ t ++ ct) = i).
  { rewrite <- Hi. rewrite firstn_app, Nat.sub_diag, firstn_O, firstn_all, app_nil_r.
    reflexivity. }
  assert (E2 : skipn 12 (i ++ t ++ ct) = t ++ ct).
  { rewrite <- Hi. rewrite skipn_app, Nat.sub_diag, skipn_all, skipn_O. reflexivity. }
  assert (E3 : firstn 16 (t ++ ct) = t).
  { rewrite <- Ht. rewrite firstn_app, Nat.sub_diag, firstn_O, firstn_all, app_nil_r.
    reflexivity. }
  assert (E4 : skipn 28 (i ++ t ++ ct) = ct).
  { change 28%nat with (16 + 12)%nat. rewrite <- skipn_skipn, E2.
    rewrite <- Ht. rewrite skipn_app, Nat.sub_diag, skipn_all, skipn_O. reflexivity. }
  rewrite E1, E2, E3, E4. reflexivity.
Qed.

Lemma pack_unpack (packed : bytes) (enc : EncryptedData) :
  unpackEncryptedData packed = Ok enc ->
  packEncryptedData enc = packed /\ length (iv enc) = 12%nat /\
  length (authTag enc) = 16%nat /\ (length packed = length (ciphertext enc) + 28)%nat.
Proof.
  unfold unpackEncryptedData.
  destruct (length packed <? 28)%nat eqn:L; [discriminate|].
  apply Nat.ltb_ge in L. intros H.
  assert (E : enc = mkEncryptedData (skipn 28 packed) (firstn 12 packed)
                                    (firstn 16 (skipn 12 packed))).
  { unfold subarray, subarray_from in H.
    change (12 - 0)%nat with 12%nat in H. change (28 - 12)%nat with 16%nat in H.
    rewrite skipn_O in H. congruence. }
  subst enc. unfold packEncryptedData. cbn [iv authTag ciphertext].
  split; [|split; [|split]].
  - change 28%nat with (16 + 12)%nat. rewrite <- skipn_skipn.
    rewrite (firstn_skipn 16 (skipn 12 packed)). apply firstn_skipn.
  - rewrite length_firstn. lia.
  - rewrite length_firstn, length_skipn. lia.
  - rewrite length_skipn. lia.
Qed.

(** X3. [unpackEncryptedData] undoes [packEncryptedData] on every payload
    with a 12-byte IV and a 16-byte tag, and [packEncryptedData] undoes
    [unpackEncryptedData] on every buffer it accepts: the packed form is IV,
    tag, ciphertext, 28 bytes longer than the ciphertext. *)
Theorem unpackEncryptedData_packEncryptedData (enc : EncryptedData) (packed : bytes) :
  length (iv enc) = 12%nat -> length (authTag enc) = 16%nat ->
  unpackEncryptedData (packEncryptedData enc) = Ok enc /\
  length (packEncryptedData enc) = (length (ciphertext enc) + 28)%nat /\
  (forall enc', unpackEncryptedData packed = Ok enc' -> packEncryptedData enc' = packed).
Proof.
  intros Hi Ht. split; [apply unpack_pack; assumption|]. split.
  - unfold packEncryptedData. rewrite !length_app. lia.
  - intros enc' H. apply (pack_unpack _ _ H).
Qed.

Lemma unpackEncryptedData_packEncryptedData_witness :
  unpackEncryptedData
    (packEncryptedData (mkEncryptedData [x01; x02] (zeros 12) (zeros 16)))
  = Ok (mkEncryptedData [x01; x02] (zeros 12) (zeros 16)).
Proof.
  apply (unpackEncryptedData_packEncryptedData
           (mkEncryptedData [x01; x02] (zeros 12) (zeros 16)) []); reflexivity.
Defined.

Lemma encryptData_shape (P K : bytes) (e : entropy) :
  length K = 32%nat ->
  exists enc,
    encryptData P K e = (Ok enc, snd (randomBytes 12 e)) /\
    iv enc = fst (randomBytes 12 e) /\
    ciphertext enc = fst (GCM.encrypt K (iv enc) P) /\
    authTag enc = GCM.tag K (iv enc) (ciphertext enc) /\
    length (iv enc) = 12%nat /\ length (authTag enc) = 16%nat /\
    length (ciphertext enc) = length P.
Proof.
  intros HK. eexists. split; [apply encryptData_ok; exact HK|].
  cbn [iv ciphertext authTag]. unfold GCM.encrypt. cbn [fst snd].
  split; [reflexivity|]. split; [reflexivity|]. split; [reflexivity|].
  split; [apply length_randomBytes|].
  split; [apply length_gcm_tag | apply length_gctr].
Qed.

(** X4. With a 32-byte key [encryptData] succeeds for every plaintext: it
    draws exactly 12 bytes from the random source and uses them as the IV,
    the tag has 16 bytes, the ciphertext is as long as the plaintext, and
    the packed payload is 28 bytes longer. With a key of any other length
    it throws an InvalidKeyLength error and draws nothing. *)
Theorem encryptData_output_shape (P K : bytes) (e : entropy) :
  (length K = 32%nat ->
     exists enc,
       encryptData P K e = (Ok enc, fun i => e (12 + i)%nat) /\
       iv enc = map e (seq 0 12) /\
       length (authTag enc) = 16%nat /\
       length (ciphertext enc) = length P /\
       length (packEncryptedData enc) = (length P + 28)%nat) /\
  (length K <> 32%nat ->
     exists err, encryptData P K e = (Throw err, e) /\ kind err = InvalidKeyLength).
Proof.
  split.
  - intros HK. destruct (encryptData_shape P K e HK) as (enc & E & Hiv & _ & _ & Li & Lt & Lc).
    exists enc. split; [exact E|]. split; [exact Hiv|]. split; [exact Lt|].
    split; [exact Lc|]. unfold packEncryptedData. rewrite !length_app. lia.
  - intros HK. unfold encryptData.
    apply Nat.eqb_neq in HK. rewrite HK. cbn [negb].
    eexists. split; reflexivity.
Qed.

Lemma encryptData_output_shape_witness :
  (exists enc,
     encryptData [x68; x69] (zeros 32) (fun _ => x2a) = (Ok enc, fun i => x2a) /\
     iv enc = map (fun _ => x2a) (seq 0 12) /\
     length (authTag enc) = 16%nat /\
     length (ciphertext enc) = 2%nat /\
     length (packEncryptedData enc) = 30%nat) /\
  (exists err, encryptData [x68; x69] (zeros 31) (fun _ => x2a) = (Throw err, fun _ => x2a) /\
               kind err = InvalidKeyLength).
Proof.
  split.
  - apply (proj1 (encryptData_output_shape [x68; x69] (zeros 32) (fun _ => x2a))).
    reflexivity.
  - apply (proj2 (encryptData_output_shape [x68; x69] (zeros 31) (fun _ => x2a))).
    discriminate.
Defined.

Lemma decryptData_encryptData (P K : bytes) (e : entropy) (enc : EncryptedData) :
  length K = 32%nat -> fst (encryptData P K e) = Ok enc -> decryptData enc K = Ok P.
Proof.
  intros HK E. rewrite (encryptData_ok P K e HK) in E. cbn [fst] in E.
  injection E as <-. unfold decryptData. rewrite HK. cbn [Nat.eqb negb].
  cbn [iv authTag ciphertext].
  apply aes256gcm_decipher_cipher; [exact HK | reflexivity].
Qed.

(** X5. What upload stores can be read back by download: for every file
    and every 32-byte key, packing the output of [encryptFile], unpacking
    the packed bytes and decrypting with the same key returns the file. *)
Theorem encrypt_pack_unpack_decrypt (fileData key : bytes) (e : entropy) :
  length key = 32%nat ->
  exists encrypted,
    fst (encryptFile fileData key e) = Ok encrypted /\
    (let* unpacked := unpackEncryptedData (packEncryptedData encrypted) in
     decryptFile unpacked key) = Ok fileData.
Proof.
  intros HK. unfold encryptFile, decryptFile.
  destruct (encryptData_shape fileData key e HK) as (enc & E & _ & _ & _ & Li & Lt & _).
  exists enc. rewrite E. split; [reflexivity|].
  rewrite (unpack_pack enc Li Lt). cbn [bind].
  apply (decryptData_encryptData fileData key e); [exact HK | rewrite E; reflexivity].
Qed.

Lemma encrypt_pack_unpack_decrypt_witness :
  exists encrypted,
    fst (encryptFile [x68; x69] (zeros 32) (fun _ => x2a)) = Ok encrypted /\
    (let* unpacked := unpackEncryptedData (packEncryptedData encrypted) in
     decryptFile unpacked (zeros 32)) = Ok [x68; x69].
Proof.
  apply (encrypt_pack_unpack_decrypt [x68; x69] (zeros 32) (fun _ => x2a)).
  reflexivity.
Defined.

Lemma decryptData_inv (enc : EncryptedData) (K m : bytes) :
  decryptData enc K = Ok m ->
  length K = 32%nat /\
  authTag enc = firstn (length (authTag enc)) (GCM.tag K (iv enc) (ciphertext enc)) /\
  m = GCM.decrypt_raw K (iv enc) (ciphertext enc).
Proof.
  unfold decryptData, aes256gcm_decipher.
  destruct (length K =? 32)%nat eqn:HK; cbn [negb]; [|discriminate].
  apply Nat.eqb_eq in HK.
  destruct (length (iv enc) =? 0)%nat; [discriminate|].
  destruct (valid_gcm_tag_length (length (authTag enc))); cbn [negb]; [|discriminate].
  destruct (bytes_eqb _ _) eqn:T; [|discriminate].
  apply bytes_eqb_eq in T. intros [= <-]. auto.
Qed.

Lemma decryptData_forged_tag (P K tag' : bytes) (e : entropy) (enc : EncryptedData) :
  length K = 32%nat ->
  fst (encryptData P K e) = Ok enc ->
  length tag' = 16%nat -> tag' <> authTag enc ->
  exists err,
    decryptData (mkEncryptedData (ciphertext enc) (iv enc) tag') K = Throw err /\
    kind err = AuthenticationFailed.
Proof.
  intros HK E Ht Hne.
  destruct (encryptData_shape P K e HK) as (enc0 & E0 & Hiv & Hct & Htag & Li & Lt & Lc).
  rewrite E0 in E. cbn [fst] in E. injection E as ->.
  unfold decryptData, aes256gcm_decipher. cbn [iv authTag ciphertext].
  rewrite HK, Li, Ht. cbn [Nat.eqb negb valid_gcm_tag_length existsb orb].
  destruct (bytes_eqb tag' _) eqn:T.
  - exfalso. apply bytes_eqb_eq in T. apply Hne. rewrite T, Htag.
    rewrite <- (length_gcm_tag K (iv enc) (ciphertext enc)) at 1.
    apply firstn_all.
  - eexists. split; reflexivity.
Qed.

(** X6. [decryptData] authenticates: it returns a plaintext only when the
    tag in the payload agrees with the GCM tag recomputed from the key, the
    IV and the ciphertext. In particular, replacing the tag of a payload
    made by [encryptData] by any other 16 bytes makes [decryptData] throw
    an AuthenticationFailed error. *)
Theorem decryptData_rejects_forged_tag (P K tag' : bytes) (e : entropy) (enc : EncryptedData) :
  length K = 32%nat ->
  fst (encryptData P K e) = Ok enc ->
  length tag' = 16%nat -> tag' <> authTag enc ->
  (exists err,
     decryptData (mkEncryptedData (ciphertext enc) (iv enc) tag') K = Throw err /\
     kind err = AuthenticationFailed) /\
  (forall enc' m, decryptData enc' K = Ok m ->
     authTag enc' = firstn (length (authTag enc'))
                           (GCM.tag K (iv enc') (ciphertext enc'))).
Proof.
  intros HK E Ht Hne. split.
  - apply (decryptData_forged_tag P K tag' e enc HK E Ht Hne).
  - intros enc' m H. apply (decryptData_inv _ _ _ H).
Qed.

Lemma decryptData_rejects_forged_tag_witness :
  exists err,
    decryptData (mkEncryptedData
                   (fst (GCM.encrypt (zeros 32) (zeros 12) []))
                   (zeros 12) (zeros 16)) (zeros 32) = Throw err /\
    kind err = AuthenticationFailed.
Proof.
  refine (proj1 (decryptData_rejects_forged_tag [] (zeros 32) (zeros 16) (fun _ => x00)
            (mkEncryptedData (fst (GCM.encrypt (zeros 32) (zeros 12) []))
                             (zeros 12)
                             (snd (GCM.encrypt (zeros 32) (zeros 12) [])))
            _ _ _ _)).
  - reflexivity.
  - reflexivity.
  - reflexivity.
  - vm_compute. discriminate.
Defined.

(** ** [src/utils/encryption.ts]: the base64 form *)

Lemma list_triple_ind {A : Type} (P : list A -> Prop) :
  P [] -> (forall x, P [x]) -> (forall x y, P [x; y]) ->
  (forall x y z r, P r -> P (x :: y :: z :: r)) ->
  forall l, P l.
Proof.
  intros H0 H1 H2 H3. fix IH 1.
  intros [|x [|y [|z r]]]; [exact H0 | apply H1 | apply H2 | apply H3, IH].
Qed.

Lemma unbase64_base64_char (n : Z) :
  0 <= n < 64 ->
  unbase64 (base64_char n) = Some n /\ Ascii.eqb (base64_char n) "=" = false.
Proof.
  intros H. rewrite <- (Z2Nat.id n) by lia.
  assert (Hk : (Z.to_nat n < 64)%nat) by lia.
  generalize dependent (Z.to_nat n). clear. intros k Hk.
  do 64 (destruct k as [|k]; [split; reflexivity|]). lia.
Qed.

Lemma base64_digits_char (n : Z) (r : string) :
  0 <= n < 64 -> base64_digits (String (base64_char n) r) = n :: base64_digits r.
Proof.
  intros H. destruct (unbase64_base64_char n H) as [U E].
  cbn [base64_digits]. rewrite E, U. reflexivity.
Qed.

Lemma Buffer_from_base64_toString_base64 (b : bytes) :
  Buffer_from_base64 (toString_base64 b) = b.
Proof.
  unfold Buffer_from_base64.
  induction b as [| x | x y | x y z r IH] using list_triple_ind.
  - reflexivity.
  - pose proof (b2z_range x) as Rx. cbn [toString_base64].
    rewrite !base64_digits_char by (Z.div_mod_to_equations; lia).
    cbn [base64_digits Ascii.eqb Bool.eqb base64_bytes].
    f_equal. rewrite <- (z2b_b2z x) at 3. f_equal. Z.div_mod_to_equations. lia.
  - pose proof (b2z_range x) as Rx. pose proof (b2z_range y) as Ry.
    cbn [toString_base64].
    rewrite !base64_digits_char by (Z.div_mod_to_equations; lia).
    cbn [base64_digits Ascii.eqb Bool.eqb base64_bytes].
    f_equal; [|f_equal].
    + rewrite <- (z2b_b2z x) at 3. f_equal. Z.div_mod_to_equations. lia.
    + rewrite <- (z2b_b2z y) at 3. f_equal. Z.div_mod_to_equations. lia.
  - pose proof (b2z_range x) as Rx. pose proof (b2z_range y) as Ry.
    pose proof (b2z_range z) as Rz.
    cbn [toString_base64].
    rewrite !base64_digits_char by (Z.div_mod_to_equations; lia).
    cbn [base64_bytes]. rewrite IH.
    f_equal; [|f_equal; [|f_equal]].
    + rewrite <- (z2b_b2z x) at 3. f_equal. Z.div_mod_to_equations. lia.
    + rewrite <- (z2b_b2z y) at 3. f_equal. Z.div_mod_to_equations. lia.
    + rewrite <- (z2b_b2z z) at 3. f_equal. Z.div_mod_to_equations. lia.
Qed.

Lemma length_toString_base64 (b : bytes) :
  String.length (toString_base64 b) = (4 * ((length b + 2) / 3))%nat.
Proof.
  induction b as [| x | x y | x y z r IH] using list_triple_ind; try reflexivity.
  cbn [toString_base64 String.length List.length]. rewrite IH.
  replace (S (S (S (length r))) + 2)%nat with (1 * 3 + (length r + 2))%nat by lia.
  rewrite Nat.div_add_l by lia. lia.
Qed.

(** X7. The base64 form of a payload loses nothing:
    [deserializeEncryptedData] gives back every payload that
    [serializeEncryptedData] has written, whatever the lengths of its three
    fields, so what [decryptData] does with it is unchanged; each string has
    four characters for every three bytes, rounded up. *)
Theorem deserializeEncryptedData_serializeEncryptedData (encryptedData : EncryptedData)
        (key : bytes) :
  deserializeEncryptedData (serializeEncryptedData encryptedData) = encryptedData /\
  decryptData (deserializeEncryptedData (serializeEncryptedData encryptedData)) key
  = decryptData encryptedData key /\
  String.length (ser_ciphertext (serializeEncryptedData encryptedData))
  = (4 * ((length (ciphertext encryptedData) + 2) / 3))%nat /\
  (length (iv encryptedData) = 12%nat ->
   String.length (ser_iv (serializeEncryptedData encryptedData)) = 16%nat) /\
  (length (authTag encryptedData) = 16%nat ->
   String.length (ser_authTag (serializeEncryptedData encryptedData)) = 24%nat).
Proof.
  assert (E : deserializeEncryptedData (serializeEncryptedData encryptedData)
              = encryptedData).
  { destruct encryptedData as [ct i t].
    unfold deserializeEncryptedData, serializeEncryptedData.
    cbn [ser_ciphertext ser_iv ser_authTag ciphertext iv authTag].
    rewrite !Buffer_from_base64_toString_base64. reflexivity. }
  rewrite E. split; [reflexivity|]. split; [reflexivity|].
  unfold serializeEncryptedData. cbn [ser_ciphertext ser_iv ser_authTag].
  rewrite !length_toString_base64.
  split; [reflexivity|]. split; intros ->; reflexivity.
Qed.

(** ** [src/utils/keys.ts]: wrapping and unwrapping *)

Lemma lor_byte_range (x y : Z) : 0 <= x < 256 -> 0 <= y < 256 -> 0 <= Z.lor x y < 256.
Proof.
  intros Hx Hy.
  assert (H0 : 0 <= Z.lor x y) by (apply Z.lor_nonneg; lia).
  split; [exact H0|].
  destruct (Z.eq_dec (Z.lor x y) 0) as [->|Hne]; [lia|].
  apply Z.log2_lt_cancel. change (Z.log2 256) with 8.
  rewrite Z.log2_lor by lia.
  apply Z.max_lub_lt.
  - destruct (Z.eq_dec x 0) as [->|]; [cbn; lia|].
    apply Z.log2_lt_pow2; lia.
  - destruct (Z.eq_dec y 0) as [->|]; [cbn; lia|].
    apply Z.log2_lt_pow2; lia.
Qed.

Lemma b2z_inj (a b : byte) : b2z a = b2z b -> a = b.
Proof. intros H. rewrite <- (z2b_b2z a), <- (z2b_b2z b), H. reflexivity. Qed.

Lemma fold_lor_range (f : nat -> Z) (l : list nat) (d : Z) :
  (forall i, 0 <= f i < 256) -> 0 <= d < 256 ->
  0 <= fold_left (fun d i => Z.lor d (f i)) l d < 256.
Proof.
  intros Hf. revert d. induction l as [|i l IH]; intros d Hd; cbn [fold_left].
  - exact Hd.
  - apply IH. apply lor_byte_range; [exact Hd | apply Hf].
Qed.

Lemma fold_lor_zero (f : nat -> Z) (l : list nat) (d : Z) :
  fold_left (fun d i => Z.lor d (f i)) l d = 0 ->
  d = 0 /\ forall i, In i l -> f i = 0.
Proof.
  revert d. induction l as [|i l IH]; intros d H; cbn [fold_left] in H.
  - split; [exact H | intros i []].
  - destruct (IH _ H) as [H0 Hl]. apply Z.lor_eq_0_iff in H0 as [Hd Hi].
    split; [exact Hd|]. intros j [<-|Hj]; [exact Hi | apply Hl, Hj].
Qed.

(** [crypto_verify_16] returns 0 only for equal 16-byte strings. *)
Lemma verify_16_sound (x y : bytes) :
  length x = 16%nat -> length y = 16%nat -> Poly1305.verify_16 x y = 0 -> x = y.
Proof.
  intros Hx Hy. unfold Poly1305.verify_16.
  set (f := fun i => Z.lxor (b2z (nth i x x00)) (b2z (nth i y x00))).
  change (fold_left _ (seq 0 16) 0)
    with (fold_left (fun d i => Z.lor d (f i)) (seq 0 16) 0).
  assert (Hf : forall i, 0 <= f i < 256).
  { intros i. apply lxor_byte_range; apply b2z_range. }
  pose proof (fold_lor_range f (seq 0 16) 0 Hf ltac:(lia)) as R.
  set (d := fold_left _ _ _) in *. intros H.
  assert (Hd : d = 0).
  { destruct (Z.eq_dec d 0) as [E|E]; [exact E|]. exfalso.
    rewrite Z.mod_small in H by lia.
    rewrite Z.shiftr_div_pow2 in H by lia.
    rewrite Z.div_small in H by lia. cbn in H. discriminate H. }
  destruct (fold_lor_zero f (seq 0 16) 0 Hd) as [_ Hall].
  apply (nth_ext x y x00 x00); [congruence|].
  intros i Hi. apply b2z_inj, Z.lxor_eq. apply (Hall i).
  apply in_seq. lia.
Qed.

Lemma length_stream_xor (m n k : bytes) : length (Salsa20.stream_xor m n k) = length m.
Proof.
  unfold Salsa20.stream_xor, Salsa20.stream_salsa20_xor.
  rewrite length_xor_bytes, length_salsa20_keystream.
  pose proof (blocks64 (length m)). lia.
Qed.

Lemma length_secretbox (msg n k box : bytes) :
  nacl.secretbox msg n k = Ok box -> length box = (length msg + 16)%nat.
Proof.
  unfold nacl.secretbox, nacl.checkLengths.
  destruct (length k =? 32)%nat; cbn [negb]; [|discriminate].
  destruct (length n =? 24)%nat; cbn [negb bind]; [|discriminate].
  intros H. assert (E : box = skipn 16 (nacl.crypto_secretbox (zeros 32 ++ msg) n k))
    by congruence.
  subst box. unfold nacl.crypto_secretbox.
  rewrite length_skipn, !length_app, length_zeros, length_onetimeauth, length_skipn.
  rewrite length_stream_xor, length_app, length_zeros. lia.
Qed.

Lemma secretbox_open_inv (box n k m : bytes) :
  nacl.secretbox_open box n k = Ok (Some m) ->
  length k = 32%nat /\ length n = 24%nat /\ (16 <= length box)%nat /\
  firstn 16 box = Poly1305.onetimeauth (skipn 16 box) (Salsa20.stream 32 n k) /\
  length m = (length box - 16)%nat.
Proof.
  unfold nacl.secretbox_open, nacl.checkLengths.
  destruct (length k =? 32)%nat eqn:Hk; cbn [negb]; [|discriminate].
  destruct (length n =? 24)%nat eqn:Hn; cbn [negb bind]; [|discriminate].
  apply Nat.eqb_eq in Hk, Hn.
  destruct (length (zeros 16 ++ box) <? 32)%nat eqn:Hl; [discriminate|].
  unfold nacl.crypto_secretbox_open. rewrite Hl.
  apply Nat.ltb_ge in Hl. rewrite length_app, length_zeros in Hl.
  assert (H16 : skipn 16 (zeros 16 ++ box) = box).
  { rewrite skipn_app, length_zeros. change (16 - 16)%nat with 0%nat.
    rewrite skipn_O, skipn_all2 by (rewrite length_zeros; lia). reflexivity. }
  assert (H32 : skipn 32 (zeros 16 ++ box) = skipn 16 box).
  { change 32%nat with (16 + 16)%nat. rewrite <- skipn_skipn, H16. reflexivity. }
  rewrite H16, H32. unfold Poly1305.onetimeauth_verify.
  destruct (Poly1305.verify_16 _ _ =? 0) eqn:V; cbn [negb]; [|discriminate].
  apply Z.eqb_eq in V. apply verify_16_sound in V;
    [|rewrite length_firstn; lia | apply length_onetimeauth].
  intros H.
  assert (E : m = skipn 32 (zeros 32 ++ skipn 32 (Salsa20.stream_xor (zeros 16 ++ box) n k)))
    by congruence.
  split; [exact Hk|]. split; [exact Hn|]. split; [lia|]. split; [exact V|].
  subst m. rewrite skipn_app, length_zeros. change (32 - 32)%nat with 0%nat.
  rewrite skipn_O, skipn_all2 by (rewrite length_zeros; lia). cbn [app].
  rewrite length_skipn, length_stream_xor, length_app, length_zeros. lia.
Qed.

Lemma wrapDocumentKey_shape (D pkR : bytes) (S : DocumentKeyPair) (e : entropy) :
  length D = 32%nat -> length pkR = 32%nat -> length (secretKey S) = 32%nat ->
  exists w,
    wrapDocumentKey D pkR S e = (Ok w, snd (randomBytes 24 e)) /\
    nonce w = fst (randomBytes 24 e) /\
    senderPublicKey w = publicKey S /\
    length (encryptedKey w) = 48%nat /\
    nacl.secretbox_open (encryptedKey w) (nonce w) (nacl.box_beforenm pkR (secretKey S))
    = Ok (Some D).
Proof.
  intros HD Hpk Hsk.
  destruct (wrapDocumentKey_ok D pkR S e HD Hpk Hsk) as (box & Hb & Ho & Hw).
  eexists. split; [exact Hw|]. cbn [nonce senderPublicKey encryptedKey].
  split; [reflexivity|]. split; [reflexivity|]. split; [|exact Ho].
  rewrite (length_secretbox _ _ _ _ Hb), HD. reflexivity.
Qed.

(** X8. [wrapDocumentKey] checks the document key before anything else:
    if it is not 32 bytes long the call throws an InvalidKeyLength error
    and draws nothing. Otherwise it draws the 24-byte nonce first; a
    recipient public key or sender secret key that is not 32 bytes long then
    makes [nacl.box] throw, and with 32-byte keys the result holds that
    nonce, a 48-byte encrypted key and the sender's public key as given. *)
Theorem wrapDocumentKey_behaviour (documentKey recipientPublicKey : bytes)
        (senderKeypair : DocumentKeyPair) (e : entropy) :
  (length documentKey <> 32%nat ->
     exists err, wrapDocumentKey documentKey recipientPublicKey senderKeypair e
                 = (Throw err, e) /\ kind err = InvalidKeyLength) /\
  (length documentKey = 32%nat ->
   length recipientPublicKey <> 32%nat \/ length (secretKey senderKeypair) <> 32%nat ->
     exists err, wrapDocumentKey documentKey recipientPublicKey senderKeypair e
                 = (Throw err, fun i => e (24 + i)%nat) /\ kind err = InvalidKeyLength) /\
  (length documentKey = 32%nat ->
   length recipientPublicKey = 32%nat -> length (secretKey senderKeypair) = 32%nat ->
     exists w, wrapDocumentKey documentKey recipientPublicKey senderKeypair e
               = (Ok w, fun i => e (24 + i)%nat) /\
               nonce w = map e (seq 0 24) /\
               senderPublicKey w = publicKey senderKeypair /\
               length (encryptedKey w) = 48%nat).
Proof.
  split; [|split].
  - intros HD. unfold wrapDocumentKey. apply Nat.eqb_neq in HD. rewrite HD. cbn [negb].
    eexists. split; reflexivity.
  - intros HD Hk. unfold wrapDocumentKey. rewrite HD. cbn [Nat.eqb negb].
    unfold nacl.nonceLength, randomBytes, nacl.box, nacl.box_before, nacl.checkBoxLengths.
    destruct (length recipientPublicKey =? 32)%nat eqn:Hp; cbn [negb bind].
    + destruct (length (secretKey senderKeypair) =? 32)%nat eqn:Hs; cbn [negb bind].
      * apply Nat.eqb_eq in Hp, Hs. destruct Hk; contradiction.
      * eexists. split; reflexivity.
    + eexists. split; reflexivity.
  - intros HD Hp Hs.
    destruct (wrapDocumentKey_shape documentKey recipientPublicKey senderKeypair e HD Hp Hs)
      as (w & Hw & Hn & Hspk & Hl & _).
    exists w. split; [exact Hw|]. split; [exact Hn|]. split; [exact Hspk | exact Hl].
Qed.

Lemma wrapDocumentKey_behaviour_witness :
  (exists err, wrapDocumentKey (zeros 31) (zeros 32) (mkDocumentKeyPair (zeros 32) (zeros 32))
                 (fun _ => x07) = (Throw err, fun _ => x07) /\ kind err = InvalidKeyLength) /\
  (exists err, wrapDocumentKey (zeros 32) (zeros 5) (mkDocumentKeyPair (zeros 32) (zeros 32))
                 (fun _ => x07) = (Throw err, fun _ => x07) /\ kind err = InvalidKeyLength) /\
  (exists w, wrapDocumentKey (zeros 32) (zeros 32) (mkDocumentKeyPair (zeros 32) (zeros 32))
               (fun _ => x07) = (Ok w, fun _ => x07) /\
             nonce w = map (fun _ => x07) (seq 0 24) /\
             senderPublicKey w = zeros 32 /\
             length (encryptedKey w) = 48%nat).
Proof.
  split; [|split].
  - apply (proj1 (wrapDocumentKey_behaviour (zeros 31) (zeros 32)
                    (mkDocumentKeyPair (zeros 32) (zeros 32)) (fun _ => x07))).
    discriminate.
  - apply (proj1 (proj2 (wrapDocumentKey_behaviour (zeros 32) (zeros 5)
                    (mkDocumentKeyPair (zeros 32) (zeros 32)) (fun _ => x07)))).
    + reflexivity.
    + left. discriminate.
  - apply (proj2 (proj2 (wrapDocumentKey_behaviour (zeros 32) (zeros 32)
                    (mkDocumentKeyPair (zeros 32) (zeros 32)) (fun _ => x07))));
      reflexivity.
Defined.

Lemma unwrapDocumentKey_inv (w : WrappedKey) (sk d : bytes) :
  unwrapDocumentKey w sk = Ok d ->
  length (senderPublicKey w) = 32%nat /\ length sk = 32%nat /\
  nacl.secretbox_open (encryptedKey w) (nonce w) (nacl.box_beforenm (senderPublicKey w) sk)
  = Ok (Some d).
Proof.
  unfold unwrapDocumentKey, nacl.box_open, nacl.box_before, nacl.checkBoxLengths.
  destruct (length (senderPublicKey w) =? 32)%nat eqn:Hp; cbn [negb bind]; [|discriminate].
  destruct (length sk =? 32)%nat eqn:Hs; cbn [negb bind]; [|discriminate].
  apply Nat.eqb_eq in Hp, Hs.
  destruct (nacl.secretbox_open _ _ _) as [[m|]|err]; cbn [bind]; try discriminate.
  intros [= <-]. auto.
Qed.

(** X9. [unwrapDocumentKey] authenticates and checks sizes: it returns a
    key only if the sender public key and the secret key have 32 bytes, the
    nonce 24, and the first 16 bytes of the encrypted key are the Poly1305
    tag of the rest under the key stream of the shared key; the key returned
    is 16 bytes shorter than the encrypted key. An encrypted key shorter
    than 16 bytes is refused with an UnwrapFailed error, a sender public key
    of the wrong size with an InvalidKeyLength error. *)
Theorem unwrapDocumentKey_authenticates (wrappedKey : WrappedKey)
        (recipientSecretKey : bytes) :
  (forall documentKey,
     unwrapDocumentKey wrappedKey recipientSecretKey = Ok documentKey ->
     length (senderPublicKey wrappedKey) = 32%nat /\
     length recipientSecretKey = 32%nat /\
     length (nonce wrappedKey) = 24%nat /\
     firstn 16 (encryptedKey wrappedKey)
     = Poly1305.onetimeauth
         (skipn 16 (encryptedKey wrappedKey))
         (Salsa20.stream 32 (nonce wrappedKey)
            (nacl.box_beforenm (senderPublicKey wrappedKey) recipientSecretKey)) /\
     (length documentKey + 16 = length (encryptedKey wrappedKey))%nat) /\
  (length (senderPublicKey wrappedKey) = 32%nat -> length recipientSecretKey = 32%nat ->
   length (nonce wrappedKey) = 24%nat -> (length (encryptedKey wrappedKey) < 16)%nat ->
     exists err, unwrapDocumentKey wrappedKey recipientSecretKey = Throw err /\
                 kind err = UnwrapFailed) /\
  (length (senderPublicKey wrappedKey) <> 32%nat ->
     exists err, unwrapDocumentKey wrappedKey recipientSecretKey = Throw err /\
                 kind err = InvalidKeyLength).
Proof.
  split; [|split].
  - intros d H. destruct (unwrapDocumentKey_inv _ _ _ H) as (Hp & Hs & Ho).
    destruct (secretbox_open_inv _ _ _ _ Ho) as (_ & Hn & Hl & Ht & Hm).
    split; [exact Hp|]. split; [exact Hs|]. split; [exact Hn|]. split; [exact Ht|]. lia.
  - intros Hp Hs Hn Hl.
    unfold unwrapDocumentKey, nacl.box_open, nacl.box_before, nacl.checkBoxLengths.
    rewrite Hp, Hs. cbn [Nat.eqb negb bind].
    unfold nacl.secretbox_open, nacl.checkLengths.
    rewrite length_box_beforenm, Hn. cbn [Nat.eqb negb bind].
    assert (L : (length (zeros 16 ++ encryptedKey wrappedKey) <? 32)%nat = true).
    { apply Nat.ltb_lt. rewrite length_app, length_zeros. lia. }
    rewrite L. eexists. split; reflexivity.
  - intros Hp.
    unfold unwrapDocumentKey, nacl.box_open, nacl.box_before, nacl.checkBoxLengths.
    apply Nat.eqb_neq in Hp. rewrite Hp. cbn [negb bind].
    eexists. split; reflexivity.
Qed.

Lemma unwrapDocumentKey_authenticates_witness :
  (exists err, unwrapDocumentKey (mkWrappedKey (zeros 15) (zeros 24) (zeros 32)) (zeros 32)
               = Throw err /\ kind err = UnwrapFailed) /\
  (exists err, unwrapDocumentKey (mkWrappedKey (zeros 48) (zeros 24) (zeros 31)) (zeros 32)
               = Throw err /\ kind err = InvalidKeyLength).
Proof.
  split.
  - apply (proj1 (proj2 (unwrapDocumentKey_authenticates
                           (mkWrappedKey (zeros 15) (zeros 24) (zeros 32)) (zeros 32))));
      cbn; try reflexivity; lia.
  - apply (proj2 (proj2 (unwrapDocumentKey_authenticates
                           (mkWrappedKey (zeros 48) (zeros 24) (zeros 31)) (zeros 32)))).
    discriminate.
Defined.

Lemma unwrap_own_wrap (D : bytes) (kp : DocumentKeyPair) (e : entropy) :
  length D = 32%nat ->
  length (publicKey kp) = 32%nat -> length (secretKey kp) = 32%nat ->
  exists w, wrapDocumentKey D (publicKey kp) kp e = (Ok w, snd (randomBytes 24 e)) /\
            length (encryptedKey w) = 48%nat /\
            nonce w = fst (randomBytes 24 e) /\
            senderPublicKey w = publicKey kp /\
            unwrapDocumentKey w (secretKey kp) = Ok D.
Proof.
  intros HD Hp Hs.
  destruct (wrapDocumentKey_shape D (publicKey kp) kp e HD Hp Hs)
    as (w & Hw & Hn & Hspk & Hl & Ho).
  exists w. split; [exact Hw|]. split; [exact Hl|]. split; [exact Hn|].
  split; [exact Hspk|].
  unfold unwrapDocumentKey, nacl.box_open, nacl.box_before, nacl.checkBoxLengths.
  rewrite Hspk, Hp, Hs. cbn [Nat.eqb negb bind]. rewrite Ho. reflexivity.
Qed.

(** X10. The owner can always unwrap what they wrapped for themselves:
    for every 32-byte document key and every key pair record with 32-byte
    fields (the two halves need not even belong together), unwrapping
    [wrapDocumentKey D kp.publicKey kp] with [kp.secretKey] returns [D], also
    after the wrapped key has gone through its hex serialization. *)
Theorem unwrapDocumentKey_own_wrap (D : bytes) (kp : DocumentKeyPair) (e : entropy) :
  length D = 32%nat ->
  length (publicKey kp) = 32%nat -> length (secretKey kp) = 32%nat ->
  exists w,
    fst (wrapDocumentKey D (publicKey kp) kp e) = Ok w /\
    unwrapDocumentKey w (secretKey kp) = Ok D /\
    unwrapDocumentKey (deserializeWrappedKey (serializeWrappedKey w)) (secretKey kp) = Ok D.
Proof.
  intros HD Hp Hs.
  destruct (unwrap_own_wrap D kp e HD Hp Hs) as (w & Hw & _ & _ & _ & Hu).
  exists w. rewrite Hw. split; [reflexivity|]. split; [exact Hu|].
  rewrite deserialize_serialize_wrapped. exact Hu.
Qed.

Lemma unwrapDocumentKey_own_wrap_witness :
  exists w,
    fst (wrapDocumentKey (zeros 32) (zeros 32) (mkDocumentKeyPair (zeros 32) (zeros 32))
           (fun _ => x07)) = Ok w /\
    unwrapDocumentKey w (zeros 32) = Ok (zeros 32) /\
    unwrapDocumentKey (deserializeWrappedKey (serializeWrappedKey w)) (zeros 32)
    = Ok (zeros 32).
Proof.
  apply (unwrapDocumentKey_own_wrap (zeros 32) (mkDocumentKeyPair (zeros 32) (zeros 32))
           (fun _ => x07)); reflexivity.
Defined.

Lemma unwrapDocumentKey_cases (w : WrappedKey) (sk : bytes) :
  length (senderPublicKey w) = 32%nat -> length sk = 32%nat -> length (nonce w) = 24%nat ->
  (exists d, unwrapDocumentKey w sk = Ok d) \/
  unwrapDocumentKey w sk
  = throw "Failed to decrypt document key - invalid key or corrupted data".
Proof.
  intros Hp Hs Hn.
  unfold unwrapDocumentKey, nacl.box_open, nacl.box_before, nacl.checkBoxLengths.
  rewrite Hp, Hs. cbn [Nat.eqb negb bind].
  unfold nacl.secretbox_open, nacl.checkLengths.
  rewrite length_box_beforenm, Hn. cbn [Nat.eqb negb bind].
  destruct (length (zeros 16 ++ encryptedKey w) <? 32)%nat; [right; reflexivity|].
  destruct (nacl.crypto_secretbox_open _ _ _);
    [left; eexists; reflexivity | right; reflexivity].
Qed.

(** X11. A wrapped key whose tag has been altered is refused. If
    [unwrapDocumentKey] accepts a wrapped key, then replacing the first 16
    bytes of its encrypted key (the Poly1305 tag) by any other 16 bytes
    makes [unwrapDocumentKey] throw an UnwrapFailed error, with the same
    nonce, sender and secret key. *)
Theorem unwrapDocumentKey_rejects_forged_tag (wrappedKey : WrappedKey)
        (recipientSecretKey documentKey tag' : bytes) :
  unwrapDocumentKey wrappedKey recipientSecretKey = Ok documentKey ->
  length tag' = 16%nat -> tag' <> firstn 16 (encryptedKey wrappedKey) ->
  exists err,
    unwrapDocumentKey
      (mkWrappedKey (tag' ++ skipn 16 (encryptedKey wrappedKey))
                    (nonce wrappedKey) (senderPublicKey wrappedKey))
      recipientSecretKey = Throw err /\
    kind err = UnwrapFailed.
Proof.
  intros H Ht Hne.
  destruct (unwrapDocumentKey_inv _ _ _ H) as (Hp & Hs & Ho).
  destruct (secretbox_open_inv _ _ _ _ Ho) as (_ & Hn & _ & Htag & _).
  set (w' := mkWrappedKey _ _ _).
  destruct (unwrapDocumentKey_cases w' recipientSecretKey Hp Hs Hn) as [[d' H']|H'].
  - exfalso. apply Hne.
    destruct (unwrapDocumentKey_inv _ _ _ H') as (_ & _ & Ho').
    destruct (secretbox_open_inv _ _ _ _ Ho') as (_ & _ & _ & Htag' & _).
    cbn [encryptedKey nonce senderPublicKey w'] in Htag'.
    assert (F : firstn 16 (tag' ++ skipn 16 (encryptedKey wrappedKey)) = tag').
    { rewrite <- Ht. rewrite firstn_app, Nat.sub_diag, firstn_O, firstn_all, app_nil_r.
      reflexivity. }
    assert (S : skipn 16 (tag' ++ skipn 16 (encryptedKey wrappedKey))
                = skipn 16 (encryptedKey wrappedKey)).
    { rewrite <- Ht at 1. rewrite skipn_app, Nat.sub_diag, skipn_all, skipn_O.
      reflexivity. }
    rewrite F, S in Htag'. congruence.
  - rewrite H'. eexists. split; reflexivity.
Qed.

Lemma unwrapDocumentKey_rejects_forged_tag_witness :
  exists w,
    fst (wrapDocumentKey (zeros 32) (zeros 32) (mkDocumentKeyPair (zeros 32) (zeros 32))
           (fun _ => x07)) = Ok w /\
    forall tag', length tag' = 16%nat -> tag' <> firstn 16 (encryptedKey w) ->
      exists err,
        unwrapDocumentKey
          (mkWrappedKey (tag' ++ skipn 16 (encryptedKey w)) (nonce w) (senderPublicKey w))
          (zeros 32) = Throw err /\
        kind err = UnwrapFailed.
Proof.
  destruct (unwrap_own_wrap (zeros 32) (mkDocumentKeyPair (zeros 32) (zeros 32))
              (fun _ => x07) eq_refl eq_refl eq_refl) as (w & Hw & _ & _ & _ & Hu).
  cbn [publicKey secretKey] in Hw, Hu.
  exists w. split; [rewrite Hw; reflexivity|].
  intros tag' H1 H2.
  apply (unwrapDocumentKey_rejects_forged_tag w (zeros 32) (zeros 32) tag' Hu H1 H2).
Defined.

(** X12. A fresh key pair is the seeded key pair of the 32 bytes drawn:
    [generateKeyPair] consumes exactly 32 bytes of the random source, uses
    them as the secret key, and returns what [generateKeyPairFromSeed] returns
    for them; both fields have 32 bytes. *)
Theorem generateKeyPair_is_seeded (e : entropy) :
  generateKeyPairFromSeed (map e (seq 0 32)) = Ok (fst (generateKeyPair e)) /\
  snd (generateKeyPair e) = (fun i => e (32 + i)%nat) /\
  secretKey (fst (generateKeyPair e)) = map e (seq 0 32) /\
  length (publicKey (fst (generateKeyPair e))) = 32%nat /\
  length (secretKey (fst (generateKeyPair e))) = 32%nat.
Proof.
  assert (L : length (map e (seq 0 32)) = 32%nat) by (rewrite length_map; reflexivity).
  rewrite (generateKeyPairFromSeed_ok _ L).
  unfold generateKeyPair, nacl.box_keyPair.
  change (randomBytes 32 e) with (map e (seq 0 32), fun i => e (32 + i)%nat).
  cbn [fst snd publicKey secretKey].
  split; [reflexivity|]. split; [reflexivity|]. split; [reflexivity|].
  split; [apply length_crypto_scalarmult_base | exact L].
Qed.

(** ** [src/cli.ts]: upload, download and share *)

Lemma upload_action_eq (fileData : bytes) (name : string) (keypair : DocumentKeyPair)
      (upload : bytes -> UploadResult) (now : string) (e : entropy) :
  length (publicKey keypair) = 32%nat -> length (secretKey keypair) = 32%nat ->
  exists documentKey enc w,
    documentKey = fst (randomBytes 32 e) /\
    fst (encryptData fileData documentKey (fun i => e (32 + i)%nat)) = Ok enc /\
    length (iv enc) = 12%nat /\ length (authTag enc) = 16%nat /\
    length (ciphertext enc) = length fileData /\
    decryptFile enc documentKey = Ok fileData /\
    length (encryptedKey w) = 48%nat /\ length (nonce w) = 24%nat /\
    senderPublicKey w = publicKey keypair /\
    unwrapDocumentKey w (secretKey keypair) = Ok documentKey /\
    upload_action fileData name keypair upload now e
    = (Ok (mkDocumentMeta
             (toString_hex (deriveDocumentId (computeContentHash fileData)
                              (map e (seq 44 16))))
             name (toString_hex (computeContentHash fileData))
             (storageId (upload (packEncryptedData enc)))
             (gatewayUrl (upload (packEncryptedData enc)))
             (serializeWrappedKey w) now,
           packEncryptedData enc),
       fun i => e (84 + i)%nat).
Proof.
  intros Hpk Hsk. unfold upload_action, generateDocumentKey, encryptFile.
  destruct (randomBytes 32 e) as [documentKey e1] eqn:H1.
  assert (HD : length documentKey = 32%nat).
  { pose proof (length_randomBytes 32 e) as L. rewrite H1 in L. exact L. }
  assert (He1 : e1 = fun i => e (32 + i)%nat) by (unfold randomBytes in H1; congruence).
  destruct (encryptData_shape fileData documentKey e1 HD)
    as (enc & E & Hiv & Hct & Htag & Li & Lt & Lc).
  rewrite E.
  destruct (randomBytes 16 (snd (randomBytes 12 e1))) as [drawn e3] eqn:H3.
  assert (Hdrawn : drawn = map e (seq 44 16)).
  { unfold randomBytes in H3. cbn [snd] in H3. subst e1.
    injection H3 as <- _. reflexivity. }
  assert (He3 : e3 = fun i => e (60 + i)%nat).
  { unfold randomBytes in H3. cbn [snd] in H3. subst e1.
    injection H3 as _ <-. reflexivity. }
  unfold computeOwnerCommitment. rewrite Hsk. cbn [Nat.eqb negb].
  destruct (unwrap_own_wrap documentKey keypair e3 HD Hpk Hsk)
    as (w & Hw & Hl & Hn & Hspk & Hu).
  rewrite Hw. exists documentKey, enc, w.
  split; [reflexivity|]. split; [rewrite <- He1, E; reflexivity|].
  split; [exact Li|]. split; [exact Lt|]. split; [exact Lc|].
  split; [apply (decryptData_encryptData fileData documentKey e1);
          [exact HD | rewrite E; reflexivity]|].
  split; [exact Hl|]. split; [rewrite Hn; apply length_randomBytes|].
  split; [exact Hspk|]. split; [exact Hu|].
  subst drawn e3. reflexivity.
Qed.





(** X15. The metadata file is named by the first 16 characters of the
    document id alone. After upload has written the metadata of a document,
    [findMetadataFile] returns that file for the id and for every other
    string with the same first 16 characters; and when a second document
    whose id starts with the same 16 characters is uploaded, the file found
    for the first id holds the metadata of the second. *)
Theorem findMetadataFile_after_upload (fs : FileSystem) (id1 id2 text1 text2 : string) :
  substring 0 16 id2 = substring 0 16 id1 ->
  findMetadataFile (writeFileSync fs (upload_metaPath id1) text1) id1
  = Some (upload_metaPath id1) /\
  findMetadataFile (writeFileSync fs (upload_metaPath id1) text1) id2
  = Some (upload_metaPath id1) /\
  (forall path,
     findMetadataFile
       (writeFileSync (writeFileSync fs (upload_metaPath id1) text1)
                      (upload_metaPath id2) text2) id1 = Some path ->
     readFileSync
       (writeFileSync (writeFileSync fs (upload_metaPath id1) text1)
                      (upload_metaPath id2) text2) path = Ok text2).
Proof.
  intros H. unfold findMetadataFile, upload_metaPath, existsSync, readFileSync, writeFileSync.
  rewrite H, !String.eqb_refl. split; [reflexivity|]. split; [reflexivity|].
  intros path [= <-]. rewrite String.eqb_refl. reflexivity.
Qed.

Lemma findMetadataFile_after_upload_witness :
  findMetadataFile
    (writeFileSync (fun _ => None) (upload_metaPath "0123456789abcdef0000") "{}")
    "0123456789abcdefffff"
  = Some "0123456789abcdef.doc.json"%string.
Proof.
  apply (findMetadataFile_after_upload (fun _ => None) "0123456789abcdef0000"
           "0123456789abcdefffff" "{}" "{}").
  reflexivity.
Defined.

Lemma open_contract_world (w : World) :
  wallet_ok w = true -> deployed w = true -> module_loads w = true ->
  open_contract w = Ok (mkContract (Some tt) true).
Proof.
  intros H1 H2 H3. unfold open_contract, connect, waitForSync, connectToDeployed.
  rewrite H1. cbn [bind isConnected negb contract]. rewrite H2. cbn [negb].
  rewrite H3. reflexivity.
Qed.

Lemma hex64_decodes (pubkey : string) :
  String.length pubkey = 64%nat -> all_hex pubkey = true ->
  parsePublicKeyHex pubkey = Ok (Buffer_from_hex pubkey) /\
  length (Buffer_from_hex pubkey) = 32%nat.
Proof.
  intros Hl Ha. destruct (Buffer_from_hex_length pubkey) as (_ & _ & L3).
  specialize (L3 Ha). unfold parsePublicKeyHex. rewrite Hl. cbn [Nat.eqb negb].
  split; [reflexivity | lia].
Qed.


(** X16. Sharing after upload. The owner, holding the metadata of their
    own upload, grants access to a recipient named by 64 hexadecimal digits:
    the grant action succeeds (wallet, deployment and contract module being
    there), draws 24 bytes for the nonce, and calls [grantAccess] with the
    SHA-256 of the recipient's key as commitment, the owner's public key as
    sender, and an encrypted key that opens, under the shared key of the
    recipient's public key and the owner's secret key, to the document key of
    the upload. The revoke action for the same arguments names the same
    document id and commitment. *)
Theorem grant_action_after_upload (fileData : bytes) (name : string)
        (ownerKp : DocumentKeyPair) (upload : bytes -> UploadResult) (now : string)
        (e e2 : entropy) (docId pubkey : string) (w : World) :
  length (publicKey ownerKp) = 32%nat -> length (secretKey ownerKp) = 32%nat ->
  String.length pubkey = 64%nat -> all_hex pubkey = true ->
  wallet_ok w = true -> deployed w = true -> module_loads w = true ->
  exists meta packed e' call,
    upload_action fileData name ownerKp upload now e = (Ok (meta, packed), e') /\
    grant_action meta docId pubkey ownerKp w e2 = (Ok call, fun i => e2 (24 + i)%nat) /\
    grant_documentId call = Buffer_from_hex docId /\
    grant_recipientCommitment call = SHA256.sha256 (Buffer_from_hex pubkey) /\
    grant_senderPublicKey call = getPublicKeyHex ownerKp /\
    grant_nonce call = toString_hex (map e2 (seq 0 24)) /\
    String.length (grant_encryptedKey call) = 96%nat /\
    nacl.secretbox_open (Buffer_from_hex (grant_encryptedKey call))
                        (Buffer_from_hex (grant_nonce call))
                        (nacl.box_beforenm (Buffer_from_hex pubkey) (secretKey ownerKp))
    = Ok (Some (map e (seq 0 32))) /\
    revoke_action docId pubkey w
    = Ok (grant_documentId call, grant_recipientCommitment call).
Proof.
  intros Hpk Hsk Hl Ha W1 W2 W3.
  destruct (upload_action_eq fileData name ownerKp upload now e Hpk Hsk)
    as (K & enc & w0 & HK & _ & _ & _ & _ & _ & _ & _ & _ & Hu & Hup).
  destruct (hex64_decodes pubkey Hl Ha) as (Hparse & Hlen).
  assert (HKl : length K = 32%nat) by (subst K; apply length_randomBytes).
  destruct (wrapDocumentKey_shape K (Buffer_from_hex pubkey) ownerKp e2 HKl Hlen Hsk)
    as (wr & Hwr & Hn & Hspk & Hlek & Hopen).
  do 3 eexists. eexists. split; [exact Hup|].
  unfold grant_action, revoke_action. cbn [wrappedKey].
  rewrite deserialize_serialize_wrapped, Hu, Hparse, Hwr. cbn [bind].
  unfold computeOwnerCommitment. rewrite Hlen. cbn [Nat.eqb negb bind].
  rewrite (open_contract_world w W1 W2 W3). cbn [bind grantAccess revokeAccess contract].
  split; [reflexivity|].
  cbn [grant_documentId grant_recipientCommitment grant_senderPublicKey grant_nonce
       grant_encryptedKey].
  unfold serializeWrappedKey, getPublicKeyHex.
  cbn [ser_encryptedKey ser_nonce ser_senderPublicKey].
  rewrite !Buffer_from_hex_toString_hex, length_toString_hex, digest_update.
  rewrite Hlek, Hspk.
  split; [reflexivity|]. split; [reflexivity|]. split; [reflexivity|].
  split; [rewrite Hn; reflexivity|]. split; [reflexivity|].
  split; [|reflexivity].
  rewrite Hopen, HK. reflexivity.
Qed.

Lemma grant_action_after_upload_witness :
  exists meta packed e' call,
    upload_action [x68; x69] "hi.txt" (mkDocumentKeyPair (zeros 32) (zeros 32))
                  (fun _ => mkUploadResult "cid" "url") "now" (fun _ => x07)
    = (Ok (meta, packed), e') /\
    grant_action meta "00" (toString_hex (zeros 32))
                 (mkDocumentKeyPair (zeros 32) (zeros 32)) (mkWorld true true true)
                 (fun _ => x09)
    = (Ok call, fun _ => x09) /\
    grant_recipientCommitment call = SHA256.sha256 (zeros 32).
Proof.
  destruct (grant_action_after_upload [x68; x69] "hi.txt"
              (mkDocumentKeyPair (zeros 32) (zeros 32))
              (fun _ => mkUploadResult "cid" "url") "now" (fun _ => x07) (fun _ => x09)
              "00" (toString_hex (zeros 32)) (mkWorld true true true)
              eq_refl eq_refl eq_refl eq_refl eq_refl eq_refl eq_refl)
    as (meta & packed & e' & call & H1 & H2 & _ & H3 & _).
  exists meta, packed, e', call. split; [exact H1|]. split; [exact H2 | exact H3].
Defined.


Lemma revoke_action_inv (docId pubkey : string) (w : World) (r : bytes * bytes) :
  revoke_action docId pubkey w = Ok r ->
  String.length pubkey = 64%nat /\ length (Buffer_from_hex pubkey) = 32%nat.
Proof.
  unfold revoke_action, parsePublicKeyHex.
  destruct (String.length pubkey =? 64)%nat eqn:Hl; cbn [negb bind]; [|discriminate].
  apply Nat.eqb_eq in Hl. unfold computeOwnerCommitment.
  destruct (length (Buffer_from_hex pubkey) =? 32)%nat eqn:Hb; cbn [negb bind];
    [|discriminate].
  apply Nat.eqb_eq in Hb. intros _. split; assumption.
Qed.



(** X18. Download notices a damaged blob. After an upload, a stored blob
    whose 16 tag bytes have been replaced by any other 16 bytes makes the
    download action fail with an AuthenticationFailed error, and a blob
    shorter than 28 bytes makes it fail with a MalformedPayload error (before
    any key is touched); nothing is written in either case. *)
Theorem download_action_detects_damage (fileData : bytes) (name : string)
        (keypair : DocumentKeyPair) (upload : bytes -> UploadResult) (now : string)
        (e : entropy) :
  length (publicKey keypair) = 32%nat -> length (secretKey keypair) = 32%nat ->
  exists meta encrypted e',
    upload_action fileData name keypair upload now e
    = (Ok (meta, packEncryptedData encrypted), e') /\
    (forall tag', length tag' = 16%nat -> tag' <> authTag encrypted ->
       exists err,
         download_action meta
           (packEncryptedData
              (mkEncryptedData (ciphertext encrypted) (iv encrypted) tag'))
           keypair = Throw err /\
         kind err = AuthenticationFailed) /\
    (forall short, (length short < 28)%nat ->
       exists err, download_action meta short keypair = Throw err /\
                   kind err = MalformedPayload).
Proof.
  intros Hpk Hsk.
  destruct (upload_action_eq fileData name keypair upload now e Hpk Hsk)
    as (K & enc & w & HK & Henc & Li & Lt & _ & _ & _ & _ & _ & Hu & Hup).
  assert (HKl : length K = 32%nat) by (subst K; apply length_randomBytes).
  do 3 eexists. split; [exact Hup|]. split.
  - intros tag' Ht Hne. unfold download_action. cbn [wrappedKey].
    rewrite (unpack_pack (mkEncryptedData (ciphertext enc) (iv enc) tag') Li Ht).
    cbn [bind]. rewrite deserialize_serialize_wrapped, Hu. cbn [bind].
    unfold decryptFile.
    apply (decryptData_forged_tag fileData K tag' _ enc HKl Henc Ht Hne).
  - intros short Hs. unfold download_action, unpackEncryptedData.
    apply Nat.ltb_lt in Hs. rewrite Hs. cbn [bind]. eexists. split; reflexivity.
Qed.

Lemma download_action_detects_damage_witness :
  exists meta encrypted e',
    upload_action [x68; x69] "hi.txt" (mkDocumentKeyPair (zeros 32) (zeros 32))
                  (fun _ => mkUploadResult "cid" "url") "now" (fun _ => x07)
    = (Ok (meta, packEncryptedData encrypted), e') /\
    exists err,
      download_action meta (zeros 27) (mkDocumentKeyPair (zeros 32) (zeros 32))
      = Throw err /\
      kind err = MalformedPayload.
Proof.
  destruct (download_action_detects_damage [x68; x69] "hi.txt"
              (mkDocumentKeyPair (zeros 32) (zeros 32))
              (fun _ => mkUploadResult "cid" "url") "now" (fun _ => x07)
              eq_refl eq_refl)
    as (meta & encrypted & e' & H & _ & Hshort).
  exists meta, encrypted, e'. split; [exact H|].
  apply (Hshort (zeros 27)). cbn. lia.
Defined.

(** X19. Upload with a malformed key pair fails late. The key pair is not
    checked when it is loaded; a secret key that is not 32 bytes long makes
    the upload action throw an InvalidKeyLength error only after the file
    has been encrypted and sent to storage (60 bytes of randomness drawn), and
    a public key that is not 32 bytes long makes it throw in [nacl.box],
    after the nonce has been drawn as well. *)
Theorem upload_action_bad_keypair (fileData : bytes) (name : string)
        (keypair : DocumentKeyPair) (upload : bytes -> UploadResult) (now : string)
        (e : entropy) :
  (length (secretKey keypair) <> 32%nat ->
     exists err,
       upload_action fileData name keypair upload now e
       = (Throw err, fun i => e (60 + i)%nat) /\
       message err = "Secret key must be 32 bytes"%string /\
       kind err = InvalidKeyLength) /\
  (length (secretKey keypair) = 32%nat -> length (publicKey keypair) <> 32%nat ->
     exists err,
       upload_action fileData name keypair upload now e
       = (Throw err, fun i => e (84 + i)%nat) /\
       message err = "bad public key size"%string /\
       kind err = InvalidKeyLength).
Proof.
  assert (HD : length (map e (seq 0 32)) = 32%nat) by (rewrite length_map; reflexivity).
  destruct (encryptData_shape fileData (map e (seq 0 32)) (fun i => e (32 + i)%nat) HD)
    as (enc & E & _).
  split.
  - intros Hsk. unfold upload_action, generateDocumentKey, encryptFile.
    change (randomBytes 32 e) with (map e (seq 0 32), fun i => e (32 + i)%nat).
    cbn iota. rewrite E.
    unfold computeOwnerCommitment. apply Nat.eqb_neq in Hsk. rewrite Hsk.
    cbn [negb]. eexists. split; [reflexivity|]. split; reflexivity.
  - intros Hsk Hpk. unfold upload_action, generateDocumentKey, encryptFile.
    change (randomBytes 32 e) with (map e (seq 0 32), fun i => e (32 + i)%nat).
    cbn iota. rewrite E.
    unfold computeOwnerCommitment. rewrite Hsk. cbn [Nat.eqb negb].
    unfold wrapDocumentKey. rewrite HD. cbn [Nat.eqb negb].
    unfold nacl.nonceLength, nacl.box, nacl.box_before, nacl.checkBoxLengths.
    apply Nat.eqb_neq in Hpk. rewrite Hpk. cbn [negb bind].
    eexists. split; [reflexivity|]. split; reflexivity.
Qed.

Lemma upload_action_bad_keypair_witness :
  exists err,
    upload_action [x68; x69] "hi.txt" (deserializeKeyPair (mkSerializedKeyPair "00" "zz"))
                  (fun _ => mkUploadResult "cid" "url") "now" (fun _ => x07)
    = (Throw err, fun _ => x07) /\
    message err = "Secret key must be 32 bytes"%string /\
    kind err = InvalidKeyLength.
Proof.
  apply (proj1 (upload_action_bad_keypair [x68; x69] "hi.txt"
                  (deserializeKeyPair (mkSerializedKeyPair "00" "zz"))
                  (fun _ => mkUploadResult "cid" "url") "now" (fun _ => x07))).
  discriminate.
Defined.

(** ** [src/utils/keys.ts]: the key pair file *)

Lemma generateKeyPair_eq (e : entropy) :
  generateKeyPair e
  = (mkDocumentKeyPair (Curve25519.crypto_scalarmult_base (map e (seq 0 32)))
                       (map e (seq 0 32)),
     fun i => e (32 + i)%nat).
Proof. unfold generateKeyPair, nacl.box_keyPair, randomBytes. reflexivity. Qed.

Lemma is_hex_digit_not_comma (c : ascii) :
  is_hex_digit c = true -> Ascii.eqb c "," = false.
Proof.
  intros H. destruct (Ascii.eqb_spec c ","%char) as [->|]; [discriminate H | reflexivity].
Qed.

Lemma split_comma_hex (a b : string) :
  all_hex a = true -> split_comma (a ++ String "," b) = Some (a, b).
Proof.
  induction a as [|c a IH]; cbn [all_hex append split_comma]; intros H.
  - reflexivity.
  - apply andb_prop in H as [Hc Ha].
    rewrite (is_hex_digit_not_comma c Hc), (IH Ha). reflexivity.
Qed.

Lemma comma_json_roundtrip (s : SerializedKeyPair) :
  all_hex (ser_publicKey s) = true -> all_hex (ser_secretKey s) = true ->
  parse comma_json (stringify comma_json s) = Ok s.
Proof.
  intros Hp _. destruct s as [a b]. unfold comma_json. cbn [parse stringify].
  cbn [ser_publicKey ser_secretKey] in *.
  change (a ++ "," ++ b)%string with (a ++ String "," b)%string.
  rewrite (split_comma_hex a b Hp). reflexivity.
Qed.

(** X20. The key pair file keeps the identity. When no file exists at
    the path, [getOrCreateKeyPair] draws 32 bytes, makes the key pair of
    that secret key and writes it there, touching no other file; from then
    on [loadKeyPair] and every later [getOrCreateKeyPair] at that path return
    the same key pair, byte for byte, without drawing anything or writing
    again. (JSON is assumed to give back the record of hex strings it was
    given.) Loading from a path where nothing exists throws. *)
Theorem getOrCreateKeyPair_persists (json : JSON SerializedKeyPair) (filePath : string)
        (fs : FileSystem) (e : entropy) :
  (forall s, all_hex (ser_publicKey s) = true -> all_hex (ser_secretKey s) = true ->
             parse json (stringify json s) = Ok s) ->
  fs filePath = None ->
  loadKeyPair json filePath fs = throw ("Keypair file not found: " ++ filePath) /\
  exists keypair fs',
    getOrCreateKeyPair json filePath fs e = (Ok keypair, fs', fun i => e (32 + i)%nat) /\
    secretKey keypair = map e (seq 0 32) /\
    loadKeyPair json filePath fs' = Ok keypair /\
    (forall e2, getOrCreateKeyPair json filePath fs' e2 = (Ok keypair, fs', e2)) /\
    (forall p, p <> filePath -> fs' p = fs p).
Proof.
  intros Hjson Hnone. split.
  { unfold loadKeyPair, existsSync. rewrite Hnone. reflexivity. }
  unfold getOrCreateKeyPair, existsSync. rewrite Hnone, generateKeyPair_eq.
  set (kp := mkDocumentKeyPair _ _).
  set (fs' := saveKeyPair json kp filePath fs).
  assert (Hfs : fs' filePath = Some (stringify json (serializeKeyPair kp))).
  { unfold fs', saveKeyPair, writeFileSync. rewrite String.eqb_refl. reflexivity. }
  assert (Hload : loadKeyPair json filePath fs' = Ok kp).
  { unfold loadKeyPair, existsSync, readFileSync. rewrite Hfs. cbn [negb bind].
    rewrite Hjson by (cbn [serializeKeyPair ser_publicKey ser_secretKey];
                      apply all_hex_toString_hex).
    cbn [bind]. rewrite deserialize_serialize_keypair. reflexivity. }
  exists kp, fs'. split; [reflexivity|]. split; [reflexivity|]. split; [exact Hload|].
  split.
  - intros e2. rewrite Hfs, Hload. reflexivity.
  - intros p Hp. unfold fs', saveKeyPair, writeFileSync.
    apply String.eqb_neq in Hp. rewrite Hp. reflexivity.
Qed.

Lemma getOrCreateKeyPair_persists_witness :
  exists keypair fs',
    getOrCreateKeyPair comma_json ".midnight-doc-keys.json" (fun _ => None) (fun _ => x07)
    = (Ok keypair, fs', fun _ => x07) /\
    secretKey keypair = map (fun _ => x07) (seq 0 32) /\
    loadKeyPair comma_json ".midnight-doc-keys.json" fs' = Ok keypair.
Proof.
  destruct (getOrCreateKeyPair_persists comma_json ".midnight-doc-keys.json"
              (fun _ => None) (fun _ => x07) comma_json_roundtrip eq_refl)
    as (_ & keypair & fs' & H1 & H2 & H3 & _).
  exists keypair, fs'. split; [exact H1|]. split; [exact H2 | exact H3].
Defined.

Lemma saved_keypair_loads (json : JSON SerializedKeyPair) (filePath : string)
      (fs : FileSystem) (kp : DocumentKeyPair) :
  (forall s, all_hex (ser_publicKey s) = true -> all_hex (ser_secretKey s) = true ->
             parse json (stringify json s) = Ok s) ->
  existsSync (saveKeyPair json kp filePath fs) filePath = true /\
  loadKeyPair json filePath (saveKeyPair json kp filePath fs) = Ok kp.
Proof.
  intros Hjson.
  assert (Hfs : saveKeyPair json kp filePath fs filePath
                = Some (stringify json (serializeKeyPair kp))).
  { unfold saveKeyPair, writeFileSync. rewrite String.eqb_refl. reflexivity. }
  unfold loadKeyPair, existsSync, readFileSync. rewrite Hfs. cbn [negb bind].
  split; [reflexivity|].
  rewrite Hjson by (cbn [serializeKeyPair ser_publicKey ser_secretKey];
                    apply all_hex_toString_hex).
  cbn [bind]. rewrite deserialize_serialize_keypair. reflexivity.
Qed.

(** X21. [keys show] prints what [keys generate] printed. When the output
    file does not exist, or [--force] is given, [keys generate] draws 32
    bytes, saves the key pair and prints its public key and commitment, 64
    hex characters each; [keys show] on that file then prints the same two
    strings, and the key pair it loads has two 32-byte fields, as upload
    needs. Without [--force], [keys generate] on an existing file changes
    nothing and draws nothing. (JSON is assumed to give back the record of
    hex strings it was given.) *)
Theorem keys_show_after_keys_generate (json : JSON SerializedKeyPair) (path : string)
        (force : bool) (fs : FileSystem) (e : entropy) :
  (forall s, all_hex (ser_publicKey s) = true -> all_hex (ser_secretKey s) = true ->
             parse json (stringify json s) = Ok s) ->
  (existsSync fs path = true -> force = false ->
     keys_generate json path force fs e = (KeysNote, fs, e)) /\
  (existsSync fs path = false \/ force = true ->
     exists publicKeyHex commitmentHex fs' keypair,
       keys_generate json path force fs e
       = (KeysPrinted publicKeyHex commitmentHex, fs', fun i => e (32 + i)%nat) /\
       keys_show json path fs' = KeysPrinted publicKeyHex commitmentHex /\
       String.length publicKeyHex = 64%nat /\ String.length commitmentHex = 64%nat /\
       loadKeyPair json path fs' = Ok keypair /\
       length (publicKey keypair) = 32%nat /\ length (secretKey keypair) = 32%nat /\
       secretKey keypair = map e (seq 0 32) /\
       publicKeyHex = getPublicKeyHex keypair /\
       Buffer_from_hex commitmentHex = SHA256.sha256 (secretKey keypair)).
Proof.
  intros Hjson. split.
  - intros Hex ->. unfold keys_generate. rewrite Hex. reflexivity.
  - intros H.
    assert (G : andb (existsSync fs path) (negb force) = false).
    { destruct H as [-> | ->]; [reflexivity | apply andb_false_r]. }
    unfold keys_generate. rewrite G, generateKeyPair_eq.
    set (kp := mkDocumentKeyPair _ _).
    assert (Lsk : length (secretKey kp) = 32%nat)
      by (unfold kp; cbn [secretKey]; rewrite length_map; reflexivity).
    assert (Lpk : length (publicKey kp) = 32%nat)
      by (unfold kp; cbn [publicKey]; apply length_crypto_scalarmult_base).
    destruct (saved_keypair_loads json path fs kp Hjson) as [Hex Hload].
    unfold computeOwnerCommitment. rewrite Lsk. cbn [Nat.eqb negb].
    do 3 eexists. exists kp. split; [reflexivity|].
    unfold keys_show. rewrite Hex, Hload. cbn [negb].
    unfold computeOwnerCommitment. rewrite Lsk. cbn [Nat.eqb negb].
    split; [reflexivity|].
    unfold getPublicKeyHex.
    rewrite !length_toString_hex, Buffer_from_hex_toString_hex, digest_update,
            length_sha256, Lpk.
    repeat (split; [reflexivity|]). reflexivity.
Qed.

Lemma keys_show_after_keys_generate_witness :
  exists publicKeyHex commitmentHex fs',
    keys_generate comma_json ".midnight-doc-keys.json" false (fun _ => None) (fun _ => x07)
    = (KeysPrinted publicKeyHex commitmentHex, fs', fun _ => x07) /\
    keys_show comma_json ".midnight-doc-keys.json" fs'
    = KeysPrinted publicKeyHex commitmentHex.
Proof.
  destruct (proj2 (keys_show_after_keys_generate comma_json ".midnight-doc-keys.json"
                     false (fun _ => None) (fun _ => x07) comma_json_roundtrip)
                  (or_introl eq_refl))
    as (pk & c & fs' & kp & H1 & H2 & _).
  exists pk, c, fs'. split; [exact H1 | exact H2].
Defined.

(** ** [src/api/witnesses.ts] and the wallet seed *)


Lemma deriveSecretKeyFromWalletSeed_eq (walletSeed : string) :
  deriveSecretKeyFromWalletSeed walletSeed
  = SHA256.sha256 (bytes_of_string "midnight-doc-manager:owner-key:"
                   ++ Buffer_from_hex walletSeed) /\
  length (deriveSecretKeyFromWalletSeed walletSeed) = 32%nat.
Proof.
  unfold deriveSecretKeyFromWalletSeed. rewrite digest_update2.
  split; [reflexivity | apply length_sha256].
Qed.



(** X23. The key [createDocumentManager] derives always fits the
    contract's witnesses. Whenever WALLET_SEED is set to a non-empty string,
    of whatever form, the derived secret key has 32 bytes, so
    [createWitnesses] accepts it (its witness function hands back the private
    state unchanged together with that key) and [computeOwnerCommitment]
    yields a 32-byte commitment; with WALLET_SEED unset or empty
    [createDocumentManager] throws. *)
Theorem createDocumentManager_key_fits (env : Env) :
  (falsy (env "WALLET_SEED"%string) = true ->
     createDocumentManager env = throw "WALLET_SEED not set in environment") /\
  (forall secretKey, createDocumentManager env = Ok secretKey ->
     (exists seed, env "WALLET_SEED"%string = Some seed /\ seed <> EmptyString /\
                   secretKey = deriveSecretKeyFromWalletSeed seed) /\
     length secretKey = 32%nat /\
     (exists witnesses,
        createWitnesses secretKey = Ok witnesses /\
        forall (PrivateState : Type) (privateState : PrivateState),
          witnesses PrivateState privateState = (privateState, secretKey)) /\
     (exists commitment, computeOwnerCommitment secretKey = Ok commitment /\
                         length commitment = 32%nat)).
Proof.
  unfold createDocumentManager. split.
  - intros H. rewrite H. reflexivity.
  - intros sk. destruct (env "WALLET_SEED"%string) as [seed|]; cbn [falsy or_else];
      [|discriminate].
    destruct (String.eqb_spec seed EmptyString) as [->|Hne]; [discriminate|].
    intros H. assert (E : sk = deriveSecretKeyFromWalletSeed seed) by congruence.
    destruct (deriveSecretKeyFromWalletSeed_eq seed) as [_ L]. rewrite <- E in L.
    split; [exists seed; auto|]. split; [exact L|]. split.
    + unfold createWitnesses. rewrite L. cbn [Nat.eqb negb].
      eexists. split; [reflexivity|]. reflexivity.
    + unfold computeOwnerCommitment. rewrite L. cbn [Nat.eqb negb].
      eexists. split; [reflexivity|]. rewrite digest_update. apply length_sha256.
Qed.

Lemma createDocumentManager_key_fits_witness :
  length (deriveSecretKeyFromWalletSeed "not hex at all") = 32%nat /\
  exists witnesses,
    createWitnesses (deriveSecretKeyFromWalletSeed "not hex at all") = Ok witnesses.
Proof.
  destruct (proj2 (createDocumentManager_key_fits
                     (fun key => if String.eqb key "WALLET_SEED"
                                 then Some "not hex at all"%string else None))
                  (deriveSecretKeyFromWalletSeed "not hex at all") eq_refl)
    as (_ & L & (ws & Hw & _) & _).
  split; [exact L|]. exists ws. exact Hw.
Defined.

(** ** [src/utils/environment.ts] *)

Lemma test_hex64_iff (s : string) :
  test_hex64 s = true <-> String.length s = 64%nat /\ all_hex s = true.
Proof.
  unfold test_hex64. rewrite andb_true_iff, Nat.eqb_eq. reflexivity.
Qed.

(** X24. [validateEnvironment] passes exactly when WALLET_SEED is set to 64
    hexadecimal digits. The seed then decodes to exactly 32 bytes, and the
    key [createDocumentManager] derives is the SHA-256 of the fixed prefix
    followed by those 32 bytes. An unset or empty WALLET_SEED is reported as
    missing. *)
Theorem validateEnvironment_accepts_hex64 (env : Env) :
  (validateEnvironment env = Ok tt <->
   exists seed, env "WALLET_SEED"%string = Some seed /\
                String.length seed = 64%nat /\ all_hex seed = true) /\
  (validateEnvironment env = Ok tt ->
   exists seed, env "WALLET_SEED"%string = Some seed /\
                length (Buffer_from_hex seed) = 32%nat /\
                createDocumentManager env
                = Ok (SHA256.sha256 (bytes_of_string "midnight-doc-manager:owner-key:"
                                     ++ Buffer_from_hex seed))) /\
  (falsy (env "WALLET_SEED"%string) = true ->
   validateEnvironment env
   = throw "Missing required environment variables: WALLET_SEED").
Proof.
  assert (A : validateEnvironment env = Ok tt <->
              exists seed, env "WALLET_SEED"%string = Some seed /\
                           String.length seed = 64%nat /\ all_hex seed = true).
  { unfold validateEnvironment. cbn [filter].
    destruct (env "WALLET_SEED"%string) as [seed|]; cbn [falsy or_else].
    - destruct (String.eqb_spec seed EmptyString) as [->|Hne]; cbn [List.length Nat.ltb Nat.leb].
      + split; [discriminate|]. intros (s & [= <-] & Hl & _). discriminate Hl.
      + destruct (test_hex64 seed) eqn:T; cbn [negb].
        * apply test_hex64_iff in T. split; [|reflexivity]. intros _. exists seed. tauto.
        * split; [discriminate|]. intros (s & [= <-] & Hl & Ha).
          assert (T' : test_hex64 seed = true) by (apply test_hex64_iff; tauto).
          congruence.
    - cbn [List.length Nat.ltb Nat.leb]. split; [discriminate|].
      intros (s & H & _). discriminate H. }
  split; [exact A|]. split.
  - intros H. apply A in H as (seed & Hs & Hl & Ha). exists seed.
    destruct (hex64_decodes seed Hl Ha) as [_ Hb].
    split; [exact Hs|]. split; [exact Hb|].
    unfold createDocumentManager. rewrite Hs. cbn [falsy or_else].
    destruct (String.eqb_spec seed EmptyString) as [->|Hne]; [discriminate Hl|].
    rewrite (proj1 (deriveSecretKeyFromWalletSeed_eq seed)). reflexivity.
  - intros H. unfold validateEnvironment. cbn [filter]. rewrite H. reflexivity.
Qed.

Lemma validateEnvironment_accepts_hex64_witness :
  validateEnvironment
    (fun key => if String.eqb key "WALLET_SEED"
                then Some "00112233445566778899AABBCCDDEEFF00112233445566778899aabbccddeeff"%string
                else None)
  = Ok tt.
Proof.
  apply (proj2 (proj1 (validateEnvironment_accepts_hex64
           (fun key => if String.eqb key "WALLET_SEED"
                       then Some "00112233445566778899AABBCCDDEEFF00112233445566778899aabbccddeeff"%string
                       else None)))).
  eexists. split; [reflexivity|]. split; reflexivity.
Defined.

(** ** [src/api/contract.ts]: the life cycle of the wrapper object *)

Lemma calls_app (this : DocumentManagerContract) (cs1 cs2 : list Call) :
  calls this (cs1 ++ cs2) = calls (calls this cs1) cs2.
Proof. apply fold_left_app. Qed.

Lemma call_keeps_invariant (this : DocumentManagerContract) (c : Call) :
  (contract this <> None -> isConnected this = true) ->
  contract (call this c) <> None -> isConnected (call this c) = true.
Proof.
  destruct this as [ct ic]. cbn [contract isConnected]. intros I.
  destruct c as [ok | | loads | ? ? ? ? ? | ? ? | ? ? ? ? ? | ? ? | ? ? | ]; cbn [call]; try exact I.
  - destruct ok; cbn; [reflexivity | exact I].
  - unfold connectToDeployed. cbn [isConnected contract].
    destruct ic; cbn; [|exact I].
    destruct loads; cbn; [reflexivity | exact I].
  - cbn. intros H. contradiction.
Qed.

Lemma calls_keep_invariant (cs : list Call) (this : DocumentManagerContract) :
  (contract this <> None -> isConnected this = true) ->
  contract (calls this cs) <> None -> isConnected (calls this cs) = true.
Proof.
  revert this. induction cs as [|c cs IH]; intros this I; [exact I|].
  apply (IH (call this c)), call_keeps_invariant, I.
Qed.

Lemma calls_without_attach (cs : list Call) (this : DocumentManagerContract) :
  contract this = None -> ~ In (CallConnectToDeployed true) cs ->
  contract (calls this cs) = None.
Proof.
  revert this. induction cs as [|c cs IH]; intros this H N; [exact H|].
  apply (IH (call this c)); [|intros X; apply N; right; exact X].
  destruct this as [ct ic]. cbn [contract] in H. subst ct.
  destruct c as [ok | | loads | ? ? ? ? ? | ? ? | ? ? ? ? ? | ? ? | ? ? | ]; cbn [call]; try reflexivity.
  - destruct ok; reflexivity.
  - unfold connectToDeployed. cbn [isConnected contract].
    destruct ic; cbn; [|reflexivity].
    destruct loads; cbn; [|reflexivity]. exfalso. apply N. left. reflexivity.
Qed.

Lemma calls_without_connect (cs : list Call) (this : DocumentManagerContract) :
  contract this = None -> isConnected this = false -> ~ In (CallConnect true) cs ->
  contract (calls this cs) = None /\ isConnected (calls this cs) = false.
Proof.
  revert this. induction cs as [|c cs IH]; intros this H C N; [split; assumption|].
  assert (N' : ~ In (CallConnect true) cs) by (intros X; apply N; right; exact X).
  destruct this as [ct ic]. cbn [contract isConnected] in H, C. subst ct ic.
  change (calls (mkContract None false) (c :: cs))
    with (calls (call (mkContract None false) c) cs).
  destruct c as [ok | | loads | ? ? ? ? ? | ? ? | ? ? ? ? ? | ? ? | ? ? | ]; cbn [call];
    try (apply IH; [reflexivity | reflexivity | exact N']).
  destruct ok; [exfalso; apply N; left; reflexivity|].
  apply IH; [reflexivity | reflexivity | exact N'].
Qed.

(** X25. The life cycle of the contract wrapper. Whatever calls are made
    on a fresh object, in whatever order, and whichever of them throw: the
    contract is loaded only while the object is connected; if no
    [connectToDeployed] with a loadable module is among the calls, or no
    successful [connect], every contract method throws 'Contract not
    connected'; and after [close] the methods throw again and [waitForSync]
    fails with 'Not connected'. *)
Theorem contract_lifecycle (cs : list Call) (documentId hash : bytes) (s1 s2 s3 : string) :
  (contract (calls (mkContract None false) cs) <> None ->
   isConnected (calls (mkContract None false) cs) = true) /\
  (~ In (CallConnectToDeployed true) cs \/ ~ In (CallConnect true) cs ->
   verifyDocument (calls (mkContract None false) cs) documentId hash
   = throw "Contract not connected" /\
   registerDocument (calls (mkContract None false) cs) documentId hash s1 hash s2
   = throw "Contract not connected" /\
   grantAccess (calls (mkContract None false) cs) documentId hash s1 s2 s3
   = throw "Contract not connected" /\
   revokeAccess (calls (mkContract None false) cs) documentId hash
   = throw "Contract not connected" /\
   hasAccess (calls (mkContract None false) cs) documentId hash
   = throw "Contract not connected") /\
  (verifyDocument (calls (mkContract None false) (cs ++ [CallClose])) documentId hash
   = throw "Contract not connected" /\
   waitForSync (calls (mkContract None false) (cs ++ [CallClose]))
   = throw "Not connected").
Proof.
  split; [|split].
  - apply calls_keep_invariant. cbn. intros H. contradiction.
  - intros H.
    assert (E : contract (calls (mkContract None false) cs) = None).
    { destruct H as [H|H].
      - apply calls_without_attach; [reflexivity | exact H].
      - apply (calls_without_connect cs (mkContract None false) eq_refl eq_refl H). }
    unfold verifyDocument, registerDocument, grantAccess, revokeAccess, hasAccess.
    rewrite E. repeat split.
  - rewrite calls_app. split; reflexivity.
Qed.

Lemma contract_lifecycle_witness :
  verifyDocument
    (calls (mkContract None false)
           [CallConnect false; CallConnectToDeployed true; CallVerifyDocument [] []])
    [] []
  = throw "Contract not connected".
Proof.
  apply (proj1 (proj2 (contract_lifecycle
           [CallConnect false; CallConnectToDeployed true; CallVerifyDocument [] []]
           [] [] "" "" ""))).
  right. cbn. intros [H|[H|[H|[]]]]; discriminate H.
Defined.

(** ** Storage configuration and providers *)

Lemma strip_trailing_slash_app (s : string) : strip_trailing_slash (s ++ "/") = s.
Proof.
  induction s as [|c s IH]; [reflexivity|].
  cbn [append]. destruct s as [|d s].
  - reflexivity.
  - change (strip_trailing_slash (String c (String d s ++ "/")))
      with (String c (strip_trailing_slash (String d s ++ "/"))).
    rewrite IH. reflexivity.
Qed.

Lemma strip_trailing_slash_id (s : string) :
  (forall s', s <> (s' ++ "/")%string) -> strip_trailing_slash s = s.
Proof.
  induction s as [|c s IH]; intros H; [reflexivity|].
  destruct s as [|d s].
  - cbn [strip_trailing_slash]. destruct (Ascii.eqb_spec c "/"%char) as [->|]; [|reflexivity].
    exfalso. apply (H EmptyString). reflexivity.
  - change (strip_trailing_slash (String c (String d s)))
      with (String c (strip_trailing_slash (String d s))).
    rewrite IH; [reflexivity|]. intros s' E. apply (H (String c s')).
    cbn [append]. rewrite E. reflexivity.
Qed.

(** X26. A trailing slash on the configured gateway is harmless: the
    Pinata provider built from [g ++ "/"] returns [g ++ "/" ++ id] as URL of
    [id], for every [g] (so only one slash is dropped); and when [g] does
    not itself end in a slash this is also the URL the provider built from
    [g] returns. *)
Theorem gateway_url_trailing_slash (Wallet : Type) (jwt gateway storageId : string) :
  provider_getGatewayUrl (@new_PinataStorage Wallet jwt (gateway ++ "/")) storageId
  = (gateway ++ "/" ++ storageId)%string /\
  ((forall g, gateway <> (g ++ "/")%string) ->
   provider_getGatewayUrl (@new_PinataStorage Wallet jwt gateway) storageId
   = provider_getGatewayUrl (@new_PinataStorage Wallet jwt (gateway ++ "/")) storageId).
Proof.
  unfold new_PinataStorage, provider_getGatewayUrl.
  rewrite strip_trailing_slash_app. split; [reflexivity|].
  intros H. rewrite (strip_trailing_slash_id gateway H). reflexivity.
Qed.

Lemma gateway_url_trailing_slash_witness :
  provider_getGatewayUrl
    (@new_PinataStorage unit "jwt" "https://gateway.pinata.cloud/ipfs") "Qm"
  = provider_getGatewayUrl
      (@new_PinataStorage unit "jwt" "https://gateway.pinata.cloud/ipfs/") "Qm".
Proof.
  apply (proj2 (gateway_url_trailing_slash unit "jwt"
                  "https://gateway.pinata.cloud/ipfs" "Qm")).
  repeat (intros g H; destruct g as [|? g]; cbn [append] in H;
          [discriminate H | first [discriminate H | injection H as _ H; revert g H]]).
Defined.

Lemma or_else_some (v : option string) (s : string) :
  v = Some s -> s <> EmptyString -> or_else v "" = s /\ falsy v = false.
Proof.
  intros -> H. cbn [or_else falsy]. apply String.eqb_neq in H. rewrite H. auto.
Qed.



(** ** The web front end *)

Lemma web_byte_hex (x : byte) :
  Web.padStart 2 "0" (Web.toString16 (b2z x))
  = String (hex_digit (b2z x / 16)) (String (hex_digit (b2z x mod 16)) EmptyString).
Proof.
  pose proof (b2z_range x) as R. unfold Web.toString16.
  destruct (b2z x <? 16) eqn:L.
  - apply Z.ltb_lt in L. rewrite Z.div_small, Z.mod_small by lia. reflexivity.
  - reflexivity.
Qed.

Lemma bufferToHex_toString_hex (buffer : bytes) :
  Web.bufferToHex buffer = toString_hex buffer.
Proof.
  unfold Web.bufferToHex. induction buffer as [|x r IH]; [reflexivity|].
  cbn [map toString_hex]. rewrite <- IH, web_byte_hex.
  destruct r as [|y r]; reflexivity.
Qed.

(** X28. The web page and the command line agree on the content hash: for
    every file, [computeHash] of the front end (SHA-256, then [bufferToHex])
    is the same 64-character string as [computeContentHashHex]; more
    generally [bufferToHex] is [toString("hex")] on every buffer. *)
Theorem web_computeHash_is_computeContentHashHex (data : bytes) :
  Web.computeHash data = computeContentHashHex data /\
  String.length (Web.computeHash data) = 64%nat /\
  (forall buffer, Web.bufferToHex buffer = toString_hex buffer).
Proof.
  unfold Web.computeHash, computeContentHashHex, computeContentHash.
  rewrite bufferToHex_toString_hex, digest_update, length_toString_hex, length_sha256.
  split; [reflexivity|]. split; [reflexivity | apply bufferToHex_toString_hex].
Qed.
(** ** Test vectors for the encodings *)

Example base64_rfc4648 :
  toString_base64 (bytes_of_string "foobar") = "Zm9vYmFy"%string /\
  toString_base64 (bytes_of_string "fooba") = "Zm9vYmE="%string /\
  toString_base64 (bytes_of_string "foob") = "Zm9vYg=="%string /\
  Buffer_from_base64 "Zm9vYg" = bytes_of_string "foob".
Proof. repeat split. Qed.

Example hex_lenient :
  Buffer_from_hex "0aFf1" = [x0a; xff] /\ Buffer_from_hex "0a0g0b" = [x0a] /\
  Web.bufferToHex [x0a; xff] = "0aff"%string.
Proof. repeat split. Qed.
